(** * Novel injector: chunker, progress store and injection controller

    A shallow embedding of [src/core/textProcessor.js],
    [src/core/fileManager.js] and [src/core/injectionEngine.js], with the
    properties of the specification stated over it.

    JavaScript strings are sequences of UTF-16 code units; [length],
    [substring], [slice], [includes] and the regular expressions of the
    source all work on code units, so a string is a [list N] here. *)

From Stdlib Require Import ZArith NArith Lia Bool Ascii String.
From stdpp Require Import base list gmap pretty.

Local Open Scope Z_scope.

(* ===================================================================== *)
(** ** JavaScript strings                                                *)
(* ===================================================================== *)

Module JsString.

(** One UTF-16 code unit. *)
Definition unit16 := N.

Definition jsstring := list unit16.

(** *** Literals

    The literals of the source are written as Rocq string literals (which
    hold UTF-8 bytes) and decoded to code units by [utf16].  A code point
    above U+FFFF becomes a surrogate pair, as in a JavaScript literal. *)

Fixpoint string_bytes (s : string) : list N :=
  match s with
  | EmptyString => []
  | String c r => N_of_ascii c :: string_bytes r
  end.

Fixpoint utf8_decode (bs : list N) : jsstring :=
  match bs with
  | [] => []
  | b0 :: r0 =>
    if (b0 <? 128)%N then b0 :: utf8_decode r0
    else
      match r0 with
      | [] => []
      | b1 :: r1 =>
        if (b0 <? 224)%N then
          ((b0 mod 32) * 64 + b1 mod 64)%N :: utf8_decode r1
        else
          match r1 with
          | [] => []
          | b2 :: r2 =>
            if (b0 <? 240)%N then
              ((b0 mod 16) * 4096 + (b1 mod 64) * 64 + b2 mod 64)%N
                :: utf8_decode r2
            else
              match r2 with
              | [] => []
              | b3 :: r3 =>
                let cp := ((b0 mod 8) * 262144 + (b1 mod 64) * 4096
                           + (b2 mod 64) * 64 + b3 mod 64)%N in
                let v := (cp - 65536)%N in
                (55296 + v / 1024)%N :: (56320 + v mod 1024)%N
                  :: utf8_decode r3
              end
          end
      end
  end.

Definition utf16 (s : string) : jsstring := utf8_decode (string_bytes s).

Definition LF : jsstring := [10%N].
Definition CR : jsstring := [13%N].
(** The double quote, U+0022. *)
Definition DQUOTE : jsstring := [34%N].
(** The apostrophe, U+0027. *)
Definition APOS : jsstring := [39%N].

(** *** Equality and search *)

Definition unit_eqb (a b : unit16) : bool := (a =? b)%N.

Fixpoint str_eqb (a b : jsstring) : bool :=
  match a, b with
  | [], [] => true
  | x :: a', y :: b' => unit_eqb x y && str_eqb a' b'
  | _, _ => false
  end.

(** [starts_with s p]: [p] is a prefix of [s]. *)
Fixpoint starts_with (s p : jsstring) : bool :=
  match p with
  | [] => true
  | y :: p' =>
    match s with
    | [] => false
    | x :: s' => unit_eqb x y && starts_with s' p'
    end
  end.

(** [String.prototype.includes]. *)
Fixpoint includes (s needle : jsstring) : bool :=
  starts_with s needle ||
  match s with
  | [] => false
  | _ :: s' => includes s' needle
  end.

(** [Array.prototype.includes] on an array of strings. *)
Definition array_includes (xs : list jsstring) (x : jsstring) : bool :=
  existsb (str_eqb x) xs.

(** [String.prototype.length]. *)
Definition js_length (s : jsstring) : Z := Z.of_nat (length s).

(** [Array.prototype.length]. *)
Definition array_length {A} (xs : list A) : Z := Z.of_nat (length xs).

(** [s.substring(0, n)] for a number [n]: a negative [n] counts as 0 and
    one past the end as the length. *)
Definition substring0 (n : Z) (s : jsstring) : jsstring :=
  take (Z.to_nat n) s.

(** [s.slice(-1)]: the last code unit as a string, or the empty string. *)
Definition slice_last (s : jsstring) : jsstring :=
  match last s with
  | Some c => [c]
  | None => []
  end.

(** *** White space

    The set removed by [trim] and matched by the class [\s]: the
    WhiteSpace and LineTerminator code points of ECMAScript. *)
Definition is_space (c : unit16) : bool :=
  ((9 <=? c) && (c <=? 13) || (c =? 32) || (c =? 160) || (c =? 5760)
   || (8192 <=? c) && (c <=? 8202) || (c =? 8232) || (c =? 8233)
   || (c =? 8239) || (c =? 8287) || (c =? 12288) || (c =? 65279))%N.

Fixpoint trim_start (s : jsstring) : jsstring :=
  match s with
  | [] => []
  | c :: r => if is_space c then trim_start r else s
  end.

Definition trim_end (s : jsstring) : jsstring :=
  rev (trim_start (rev s)).

(** [String.prototype.trim]. *)
Definition trim (s : jsstring) : jsstring := trim_end (trim_start s).

(** [s.split(sep)] for a separator of one code unit. *)
Fixpoint split_on (sep : unit16) (cur : jsstring) (s : jsstring)
  : list jsstring :=
  match s with
  | [] => [rev cur]
  | c :: r =>
    if unit_eqb c sep then rev cur :: split_on sep [] r
    else split_on sep (c :: cur) r
  end.

(** [s.split(/\s+/)]: the pieces between maximal runs of white space; a
    run at either end leaves an empty piece there. *)
Fixpoint split_spaces (cur : jsstring) (in_run : bool) (s : jsstring)
  : list jsstring :=
  match s with
  | [] => [rev cur]
  | c :: r =>
    if is_space c then
      if in_run then split_spaces [] true r
      else rev cur :: split_spaces [] true r
    else split_spaces (c :: cur) false r
  end.

(** [Array.prototype.join]: [undefined] elements count as the empty
    string. *)
Fixpoint join (sep : jsstring) (xs : list (option jsstring)) : jsstring :=
  match xs with
  | [] => []
  | [x] => default [] x
  | x :: r => default [] x ++ sep ++ join sep r
  end.

(** Conversion of an integer to a string (decimal digits, a minus sign
    when negative). *)
Definition of_Z (z : Z) : jsstring := utf16 (pretty z).

(** Truthiness of a possibly undefined string: [undefined] and the empty
    string are falsy. *)
Definition truthy (s : option jsstring) : bool :=
  match s with
  | Some (_ :: _) => true
  | _ => false
  end.

(** [s || d] for a possibly undefined string. *)
Definition or_else (s : option jsstring) (d : jsstring) : jsstring :=
  match s with
  | Some (c :: r) => c :: r
  | _ => d
  end.

End JsString.

Import JsString.

Arguments utf16 : simpl never.
Arguments of_Z : simpl never.

(* ===================================================================== *)
(** ** Text measures of [core/textProcessor.js]                          *)
(* ===================================================================== *)

Module TextMeasure.

(** The class [[\u4e00-\u9fff\u3000-\u303f\uff01-\uff5e]]. *)
Definition is_cjk (c : unit16) : bool :=
  ((19968 <=? c) && (c <=? 40959) || (12288 <=? c) && (c <=? 12351)
   || (65281 <=? c) && (c <=? 65374))%N.

(** [countWords]: the CJK code units of the trimmed text, plus the
    non-empty pieces left between white space once every CJK code unit
    is replaced by a space.  A value that is not a string, or is empty,
    counts 0. *)
Definition countWords (text : option jsstring) : Z :=
  match text with
  | None => 0
  | Some text =>
    let cleanText := trim text in
    if js_length cleanText =? 0 then 0
    else
      let chineseChars := array_length (List.filter is_cjk cleanText) in
      let englishWords :=
        array_length
          (List.filter (fun word => 0 <? js_length (trim word))
             (split_spaces [] false
                (map (fun c => if is_cjk c then 32%N else c) cleanText))) in
      chineseChars + englishWords
  end.

(** The two tables of [isGoodBreakPoint], as the source lists them; the
    fourth and fifth entries of the first table read as the ASCII double
    quote and apostrophe in the source text. *)
Definition chineseEndings : list jsstring :=
  [utf16 "。"; utf16 "！"; utf16 "？"; DQUOTE; APOS; utf16 ")";
   utf16 "）"; utf16 "…"].

Definition englishEndings : list jsstring :=
  [utf16 "."; utf16 "!"; utf16 "?"; DQUOTE; APOS; utf16 ")"].

Definition isGoodBreakPoint (paragraph : option jsstring) : bool :=
  match paragraph with
  | None | Some [] => false
  | Some paragraph =>
    let lastChar := slice_last (trim paragraph) in
    array_includes chineseEndings lastChar
    || array_includes englishEndings lastChar
  end.

(** *** Chapter labels *)

Definition is_digit (c : unit16) : bool := ((48 <=? c) && (c <=? 57))%N.

(** The class [[一二三四五六七八九十百千万\d]]. *)
Definition is_numeral (c : unit16) : bool :=
  existsb (unit_eqb c) (utf16 "一二三四五六七八九十百千万") || is_digit c.

Fixpoint skip_while (p : unit16 -> bool) (s : jsstring) : jsstring :=
  match s with
  | [] => []
  | c :: r => if p c then skip_while p r else s
  end.

(** One or more code units of a class, taken greedily; the rest. *)
Definition one_or_more (p : unit16 -> bool) (s : jsstring)
  : option jsstring :=
  match s with
  | c :: r => if p c then Some (skip_while p r) else None
  | [] => None
  end.

Definition next_is (p : unit16 -> bool) (s : option jsstring) : bool :=
  match s with
  | Some (c :: _) => p c
  | _ => false
  end.

(** Case folding of the flag [i] for a pattern of ASCII letters: only
    the two ASCII cases of a letter match it. *)
Definition ascii_upper (c : unit16) : unit16 :=
  if ((97 <=? c) && (c <=? 122))%N then (c - 32)%N else c.

Fixpoint strip_prefix_ci (s p : jsstring) : option jsstring :=
  match p with
  | [] => Some s
  | y :: p' =>
    match s with
    | [] => None
    | x :: s' =>
      if unit_eqb (ascii_upper x) (ascii_upper y) then strip_prefix_ci s' p'
      else None
    end
  end.

Definition DI : unit16 := 31532%N.        (* 第 *)
Definition ZHANG : unit16 := 31456%N.     (* 章 *)
Definition JIE : unit16 := 33410%N.       (* 节 *)
Definition DUNHAO : unit16 := 12289%N.    (* 、 *)
Definition DOT : unit16 := 46%N.          (* . *)

(** [/^第[一二三四五六七八九十百千万\d]+章.*/] and the same with 节: the
    closing character is outside the class, so the greedy run decides. *)
Definition pattern_di (close : unit16) (line : jsstring) : bool :=
  match line with
  | c :: r => unit_eqb c DI
              && next_is (fun d => unit_eqb d close) (one_or_more is_numeral r)
  | [] => false
  end.

(** [/^[第]?[一二三四五六七八九十百千万\d]+[、\.].*/]. *)
Definition pattern_numbered (line : jsstring) : bool :=
  let r := match line with
           | c :: r' => if unit_eqb c DI then r' else line
           | [] => line
           end in
  next_is (fun d => unit_eqb d DUNHAO || unit_eqb d DOT)
          (one_or_more is_numeral r).

(** [/^Chapter\s+\d+.*/i]. *)
Definition pattern_chapter_en (line : jsstring) : bool :=
  match strip_prefix_ci line (utf16 "Chapter") with
  | Some r => next_is is_digit (one_or_more is_space r)
  | None => false
  end.

(** [/^Ch\.\s*\d+.*/i]. *)
Definition pattern_ch_en (line : jsstring) : bool :=
  match strip_prefix_ci line (utf16 "Ch") with
  | Some (c :: r) => unit_eqb c DOT
                     && next_is is_digit (Some (skip_while is_space r))
  | _ => false
  end.

Definition chapterPatterns : list (jsstring -> bool) :=
  [pattern_di ZHANG; pattern_di JIE; pattern_numbered;
   pattern_chapter_en; pattern_ch_en].

Definition chapter_of_index (paragraphIndex : Z) : jsstring :=
  utf16 "第" ++ of_Z (paragraphIndex / 50 + 1) ++ utf16 "章".

Fixpoint first_chapter_line (lines : list jsstring) : option jsstring :=
  match lines with
  | [] => None
  | line :: rest =>
    let trimmedLine := trim line in
    if existsb (fun pattern => pattern trimmedLine) chapterPatterns then
      Some (if 50 <? js_length trimmedLine
            then substring0 50 trimmedLine ++ utf16 "..."
            else trimmedLine)
    else first_chapter_line rest
  end.

Definition extractChapter (content : jsstring) (paragraphIndex : Z)
  : jsstring :=
  match content with
  | [] => chapter_of_index paragraphIndex
  | _ =>
    match first_chapter_line (split_on 10%N [] content) with
    | Some label => label
    | None => chapter_of_index paragraphIndex
    end
  end.

End TextMeasure.

Import TextMeasure.

Arguments countWords : simpl never.
Arguments isGoodBreakPoint : simpl never.

(* ===================================================================== *)
(** ** Data model                                                        *)
(* ===================================================================== *)

(** The settings object shared by the engine and the text processor.  A
    field that may be absent is an [option].  [autopilotDelay] holds
    [autoPilotDelay / 1000] in the source; it is kept in milliseconds here
    so that it stays an integer. *)
Module Config.
Record t := mk {
  enabled : bool;
  activeNovelId : option jsstring;
  autopilotEnabled : bool;
  autopilotDelay : Z;
  targetWordCount : option Z;
  prefixTemplate : option jsstring;
  collapseContent : bool
}.

Definition empty : t := mk false None false 3000 None None false.
End Config.

(** A novel of [fileManager.novels].  [paragraphs] is [None] while the
    content is not loaded (the persisted metadata leaves it out). *)
Record Novel := mkNovel {
  novel_id : jsstring;
  filename : jsstring;
  originalName : jsstring;
  title : jsstring;
  totalParagraphs : Z;
  currentParagraph : Z;
  uploadDate : jsstring;
  fileSize : Z;
  paragraphs : option (list jsstring)
}.

Definition with_currentParagraph (novel : Novel) (c : Z) : Novel :=
  mkNovel (novel_id novel) (filename novel) (originalName novel) (title novel)
          (totalParagraphs novel) c (uploadDate novel) (fileSize novel)
          (paragraphs novel).

Definition with_paragraphs (novel : Novel) (ps : option (list jsstring))
  : Novel :=
  mkNovel (novel_id novel) (filename novel) (originalName novel) (title novel)
          (totalParagraphs novel) (currentParagraph novel) (uploadDate novel)
          (fileSize novel) ps.

(** The object returned by [TextProcessor.getNextChunk]. *)
Record Chunk := mkChunk {
  content : jsstring;
  startParagraph : Z;
  endParagraph : Z;
  paragraphCount : Z;
  wordCount : Z;
  chapter : jsstring
}.

(* ===================================================================== *)
(** ** The chunker: [TextProcessor.getNextChunk]                         *)
(* ===================================================================== *)

Module TextProcessor.

Definition defaultTargetWordCount : Z := 500.

(** [xs[i]]: [undefined] outside the array. *)
Definition at_index {A} (xs : list A) (i : Z) : option A :=
  if i <? 0 then None else xs !! Z.to_nat i.

(** The three variables the loop updates; [walkEnd] is the variable
    [endParagraph]. *)
Record Walk := mkWalk {
  collectedParagraphs : list (option jsstring);
  totalWordCount : Z;
  walkEnd : Z
}.

(** The [for] loop of [getNextChunk] from index [i].  [fuel] bounds the
    iterations; the loop leaves by its own guard [i < paragraphs.length]
    whenever [fuel] is at least [paragraphs.length - i]. *)
Fixpoint collect (fuel : nat) (paragraphs : list jsstring)
         (targetWordCount : Z) (i : Z) (w : Walk) : Walk :=
  match fuel with
  | O => w
  | S fuel' =>
    if i <? array_length paragraphs then
      let paragraph := at_index paragraphs i in
      let paragraphWordCount := countWords paragraph in
      if (0 <? totalWordCount w)
         && (targetWordCount <? totalWordCount w + paragraphWordCount)
      then w
      else
        let w' := mkWalk (collectedParagraphs w ++ [paragraph])
                         (totalWordCount w + paragraphWordCount)
                         (i + 1) in
        if targetWordCount <=? totalWordCount w' then
          if isGoodBreakPoint paragraph then w'
          else if (i + 1 <? array_length paragraphs)
                  && (countWords (at_index paragraphs (i + 1)) <? 100)
          then collect fuel' paragraphs targetWordCount (i + 1) w'
          else w'
        else collect fuel' paragraphs targetWordCount (i + 1) w'
    else w
  end.

(** [this.settings.targetWordCount || this.defaultTargetWordCount]. *)
Definition target_of (settings : Config.t) : Z :=
  match Config.targetWordCount settings with
  | Some 0 | None => defaultTargetWordCount
  | Some n => n
  end.

(** The body of [getNextChunk] once the paragraphs are at hand. *)
Definition next_chunk (paragraphs : list jsstring) (targetWordCount : Z)
           (currentParagraph : Z) : option Chunk :=
  if array_length paragraphs <=? currentParagraph then None
  else
    let w := collect (Z.to_nat (array_length paragraphs - currentParagraph))
                     paragraphs targetWordCount currentParagraph
                     (mkWalk [] 0 currentParagraph) in
    if array_length (collectedParagraphs w) =? 0 then None
    else
      let content := join (LF ++ LF) (collectedParagraphs w) in
      Some (mkChunk content currentParagraph (walkEnd w)
                    (array_length (collectedParagraphs w))
                    (totalWordCount w)
                    (extractChapter content currentParagraph)).

Definition getNextChunk (settings : Config.t)
           (novels : gmap jsstring Novel) (novelId : jsstring)
           (currentParagraph : Z) : option Chunk :=
  match novels !! novelId with
  | None => None
  | Some novel =>
    match paragraphs novel with
    | None => None
    | Some paragraphs =>
      next_chunk paragraphs (target_of settings) currentParagraph
    end
  end.

End TextProcessor.

Import TextProcessor.

Definition three_paragraphs : list jsstring :=
  [utf16 "第一章 开端"; utf16 "他走进了房间。"; utf16 "他看了看四周，房间很小。"].


(* ===================================================================== *)
(** ** What one walk of the chunker consumes                             *)
(* ===================================================================== *)

(** The [n] array reads [paragraphs[i]], ..., [paragraphs[i + n - 1]]. *)
Fixpoint slice (paragraphs : list jsstring) (i : Z) (n : nat)
  : list (option jsstring) :=
  match n with
  | O => []
  | S n' => at_index paragraphs i :: slice paragraphs (i + 1) n'
  end.

(** The sum of the word counts of a list of reads. *)
Fixpoint words (xs : list (option jsstring)) : Z :=
  match xs with
  | [] => 0
  | p :: r => countWords p + words r
  end.

(** The running count before the read at offset [m] of a walk that
    starts at [i] with count [w0]. *)
Definition running (paragraphs : list jsstring) (w0 : Z) (i : Z) (m : nat) : Z :=
  w0 + words (slice paragraphs i m).

(** The state a walk from [i] reaches after [n] accepted paragraphs. *)
Definition after (paragraphs : list jsstring) (w : Walk) (i : Z) (n : nat)
  : Walk :=
  mkWalk (collectedParagraphs w ++ slice paragraphs i n)
         (running paragraphs (totalWordCount w) i n)
         (i + Z.of_nat n).

(** The acceptance test of the loop never lets a paragraph through that
    would push a chunk with content over the budget. *)
Definition accepted_within (paragraphs : list jsstring) (targetWordCount : Z)
           (w0 : Z) (i : Z) (n : nat) : Prop :=
  forall m : nat, (m < n)%nat ->
    0 < running paragraphs w0 i m ->
    running paragraphs w0 i m
    + countWords (at_index paragraphs (i + Z.of_nat m))
    <= targetWordCount.

(* ===================================================================== *)
(** ** The running system                                                *)
(* ===================================================================== *)

(** What the system does to its host: text handed to the original send
    function (the dispatch boundary), notifications, and custom events. *)
Inductive ToastLevel := warning | error | info | success.

Inductive Effect :=
| Deliver (text : jsstring)
| Toast (level : ToastLevel) (message : jsstring)
| Emitted (name : jsstring) (novelId : option jsstring) (chunk : Chunk).

(** An armed autopilot timer: the handle [setTimeout] returned and the
    time it is due. *)
Record Timer := mkTimer { handle : Z; due : Z }.

(** The fields of the [InjectionEngine] instance; [processorSettings] is
    the [settings] of its text processor. *)
Record Engine := mkEngine {
  isEnabled : bool;
  activeNovelId : option jsstring;
  processorSettings : Config.t;
  isAutoPilotEnabled : bool;
  autoPilotDelay : Z;
  autoPilotTimer : option Z;
  settings : Config.t
}.

(** What a call gives: the value it returns, or the message of the error
    it throws. *)
Inductive Outcome (A : Type) :=
| Returned (a : A)
| Thrown (message : jsstring).
Arguments Returned {A} a.
Arguments Thrown {A} message.

Record World := mkWorld {
  novels : gmap jsstring Novel;          (* fileManager.novels *)
  engine : Engine;                       (* injectionEngine *)
  storedNovels : gmap jsstring Novel;    (* storage key 'novels' *)
  storedSettings : option Config.t;      (* storage key 'settings' *)
  server : jsstring -> Outcome jsstring; (* the novel files on the server *)
  timers : list Timer;                   (* pending timers of the host *)
  nextHandle : Z;                        (* the next handle of setTimeout *)
  now : Z;                               (* the clock, in milliseconds *)
  effects : list Effect                  (* what was done so far, in order *)
}.

Definition with_novels (w : World) (m : gmap jsstring Novel) : World :=
  mkWorld m (engine w) (storedNovels w) (storedSettings w) (server w)
          (timers w) (nextHandle w) (now w) (effects w).

Definition with_engine (w : World) (e : Engine) : World :=
  mkWorld (novels w) e (storedNovels w) (storedSettings w) (server w)
          (timers w) (nextHandle w) (now w) (effects w).

Definition with_storedNovels (w : World) (m : gmap jsstring Novel) : World :=
  mkWorld (novels w) (engine w) m (storedSettings w) (server w)
          (timers w) (nextHandle w) (now w) (effects w).

Definition with_storedSettings (w : World) (s : option Config.t) : World :=
  mkWorld (novels w) (engine w) (storedNovels w) s (server w)
          (timers w) (nextHandle w) (now w) (effects w).

Definition with_timers (w : World) (ts : list Timer) (next : Z) : World :=
  mkWorld (novels w) (engine w) (storedNovels w) (storedSettings w) (server w)
          ts next (now w) (effects w).

Definition with_now (w : World) (t : Z) : World :=
  mkWorld (novels w) (engine w) (storedNovels w) (storedSettings w) (server w)
          (timers w) (nextHandle w) t (effects w).

Definition with_effects (w : World) (es : list Effect) : World :=
  mkWorld (novels w) (engine w) (storedNovels w) (storedSettings w) (server w)
          (timers w) (nextHandle w) (now w) es.

(** *** Methods as state transformers

    A method runs on the world and returns or throws; what it changed
    before throwing stays changed.  Every method runs to its end before
    the next input is taken. *)
Definition M (A : Type) : Type := World -> Outcome A * World.

#[global] Instance M_ret : MRet M := fun A a w => (Returned a, w).

#[global] Instance M_bind : MBind M := fun A B f c w =>
  match c w with
  | (Returned a, w') => f a w'
  | (Thrown message, w') => (Thrown message, w')
  end.

Definition throw {A} (message : jsstring) : M A :=
  fun w => (Thrown message, w).

(** [try { body } catch (error) { handler(error.message) }]. *)
Definition try_catch {A} (body : M A) (handler : jsstring -> M A) : M A :=
  fun w =>
    match body w with
    | (Returned a, w') => (Returned a, w')
    | (Thrown message, w') => handler message w'
    end.

Definition reads {A} (f : World -> A) : M A := fun w => (Returned (f w), w).

Definition update (f : World -> World) : M unit :=
  fun w => (Returned tt, f w).

Definition perform (e : Effect) : M unit :=
  update (fun w => with_effects w (effects w ++ [e])).

Definition update_engine (f : Engine -> Engine) : M unit :=
  update (fun w => with_engine w (f (engine w))).

(* ===================================================================== *)
(** ** [core/fileManager.js]                                             *)
(* ===================================================================== *)

Module FileManager.

(** [content.replace(/\r\n/g, '\n')]. *)
Fixpoint replace_crlf (s : jsstring) : jsstring :=
  match s with
  | [] => []
  | c :: r =>
    if unit_eqb c 13%N then
      match r with
      | d :: r' =>
        if unit_eqb d 10%N then 10%N :: replace_crlf r'
        else c :: replace_crlf r
      | [] => [c]
      end
    else c :: replace_crlf r
  end.

(** [content.replace(/\r/g, '\n')]. *)
Definition replace_cr (s : jsstring) : jsstring :=
  map (fun c => if unit_eqb c 13%N then 10%N else c) s.

(** For a string that follows a line feed: what is left after the last
    line feed of its leading run of white space, if that run has one.
    This is where a match of [/\n\s*\n/] ends: [\s*] is greedy and gives
    back only as far as the last line feed it took. *)
Fixpoint after_blank (s : jsstring) : option jsstring :=
  match s with
  | [] => None
  | c :: r =>
    if is_space c then
      match after_blank r with
      | Some rest => Some rest
      | None => if unit_eqb c 10%N then Some r else None
      end
    else None
  end.

(** [s.split(/\n\s*\n/)], the leftmost matches first. *)
Fixpoint split_blank (fuel : nat) (cur : jsstring) (s : jsstring)
  : list jsstring :=
  match fuel with
  | O => [rev cur ++ s]
  | S fuel' =>
    match s with
    | [] => [rev cur]
    | c :: r =>
      if unit_eqb c 10%N then
        match after_blank r with
        | Some rest => rev cur :: split_blank fuel' [] rest
        | None => split_blank fuel' (c :: cur) r
        end
      else split_blank fuel' (c :: cur) r
    end
  end.

Definition parseParagraphs (content : jsstring) : list jsstring :=
  match content with
  | [] => []
  | _ =>
    let normalizedContent := replace_cr (replace_crlf content) in
    List.filter (fun p => 0 <? js_length p)
      (map trim (split_blank (length normalizedContent) [] normalizedContent))
  end.

(** [this.novels.get(novelId) || null]. *)
Definition getNovel (novelId : jsstring) : M (option Novel) :=
  reads (fun w => novels w !! novelId).

(** The metadata of every novel, without its paragraphs, goes to the
    storage; [setStorage] catches its own failures. *)
Definition saveNovelsData : M unit :=
  update (fun w =>
    with_storedNovels w ((fun novel => with_paragraphs novel None) <$> novels w)).

Definition updateProgress (novelId : jsstring) (paragraphIndex : Z) : M unit :=
  novel ← getNovel novelId;
  match novel with
  | None => throw (utf16 "小说不存在")
  | Some novel =>
    update (fun w =>
      with_novels w
        (<[novelId :=
             with_currentParagraph novel
               (Z.max 0 (Z.min paragraphIndex (totalParagraphs novel - 1)))]>
           (novels w)));;
    saveNovelsData
  end.

Definition resetProgress (novelId : jsstring) : M unit :=
  updateProgress novelId 0.

(** The request for the file of a novel. *)
Definition readFileContent (fileName : jsstring) : M jsstring :=
  fun w => (server w fileName, w).

Definition reloadNovelContent (novelId : jsstring) : M unit :=
  novel ← getNovel novelId;
  match novel with
  | None => throw (utf16 "小说不存在")
  | Some novel =>
    match paragraphs novel with
    | Some _ => mret tt
    | None =>
      content ← readFileContent (filename novel);
      update (fun w =>
        with_novels w
          (<[novelId := with_paragraphs novel (Some (parseParagraphs content))]>
             (novels w)))
    end
  end.

End FileManager.

(* ===================================================================== *)
(** ** [core/injectionEngine.js]                                         *)
(* ===================================================================== *)

Module InjectionEngine.

Definition set_enablement (enabled : bool) (novelId : option jsstring)
           (e : Engine) : Engine :=
  mkEngine enabled novelId (processorSettings e) (isAutoPilotEnabled e)
           (autoPilotDelay e) (autoPilotTimer e) (settings e).

Definition set_autoPilot (enabled : bool) (delay : Z) (e : Engine) : Engine :=
  mkEngine (isEnabled e) (activeNovelId e) (processorSettings e) enabled delay
           (autoPilotTimer e) (settings e).

Definition set_autoPilotTimer (t : option Z) (e : Engine) : Engine :=
  mkEngine (isEnabled e) (activeNovelId e) (processorSettings e)
           (isAutoPilotEnabled e) (autoPilotDelay e) t (settings e).

Definition set_settings (s : Config.t) (e : Engine) : Engine :=
  mkEngine (isEnabled e) (activeNovelId e) (processorSettings e)
           (isAutoPilotEnabled e) (autoPilotDelay e) (autoPilotTimer e) s.

(** [saveSettings] builds a new settings object from the old one and the
    fields of the engine, and stores it; the text processor keeps the
    object it was given at [init]. *)
Definition saveSettings : M unit :=
  update (fun w =>
    let e := engine w in
    let s := Config.mk (isEnabled e) (activeNovelId e) (isAutoPilotEnabled e)
                       (autoPilotDelay e)
                       (Config.targetWordCount (settings e))
                       (Config.prefixTemplate (settings e))
                       (Config.collapseContent (settings e)) in
    with_storedSettings (with_engine w (set_settings s e)) (Some s)).

(** *** Host functions *)

(** [this.originalSendMessage.call(this, text)]: the dispatch boundary. *)
Definition originalSendMessage (text : jsstring) : M unit :=
  perform (Deliver text).

Definition toastr (level : ToastLevel) (message : jsstring) : M unit :=
  perform (Toast level message).

(** [setTimeout] returns a fresh handle; a negative delay counts as 0. *)
Definition setTimeout (delay : Z) : M Z :=
  fun w =>
    (Returned (nextHandle w),
     with_timers w (timers w ++ [mkTimer (nextHandle w) (now w + Z.max 0 delay)])
                 (nextHandle w + 1)).

Definition clearTimeout (h : Z) : M unit :=
  update (fun w =>
    with_timers w (List.filter (fun t => negb (handle t =? h)) (timers w))
                (nextHandle w)).

(** Truthiness of [this.autoPilotTimer]: [null] and the number 0 are
    falsy. *)
Definition timer_set (t : option Z) : bool :=
  match t with
  | Some h => negb (h =? 0)
  | None => false
  end.

(** *** The marker check *)

Definition isNovelContent (text : jsstring) : bool :=
  includes text (utf16 "[小说注入器]") || includes text (utf16 "[Novel Injector]").

Definition shouldInterceptMessage (e : Engine) (text : jsstring) : bool :=
  if negb (isEnabled e) then false
  else if negb (truthy (activeNovelId e)) then false
  else if isNovelContent text then false
  else true.

(** *** Formatting *)

(** The first occurrence of [pattern] in [s]: the text before it and the
    text after it. *)
Fixpoint find_first (s pattern : jsstring) (before : jsstring)
  : option (jsstring * jsstring) :=
  if starts_with s pattern then Some (rev before, drop (length pattern) s)
  else
    match s with
    | [] => None
    | c :: r => find_first r pattern (c :: before)
    end.

(** The replacement text of [String.prototype.replace] for a string
    pattern: [$$], [$&], [$`] and [$'] are expanded; there are no capture
    groups, so any other [$] stands for itself. *)
Fixpoint get_substitution (matched before after : jsstring)
         (template : jsstring) : jsstring :=
  match template with
  | [] => []
  | c :: r =>
    if unit_eqb c 36%N then
      match r with
      | d :: r' =>
        if unit_eqb d 36%N then 36%N :: get_substitution matched before after r'
        else if unit_eqb d 38%N then
          matched ++ get_substitution matched before after r'
        else if unit_eqb d 96%N then
          before ++ get_substitution matched before after r'
        else if unit_eqb d 39%N then
          after ++ get_substitution matched before after r'
        else c :: get_substitution matched before after r
      | [] => [c]
      end
    else c :: get_substitution matched before after r
  end.

(** [s.replace(pattern, replacement)] for a string pattern: the first
    occurrence only. *)
Definition replace (s pattern replacement : jsstring) : jsstring :=
  match find_first s pattern [] with
  | Some (before, after) =>
    before ++ get_substitution pattern before after replacement ++ after
  | None => s
  end.

(** An HTML attribute value in double quotes. *)
Definition quoted (s : jsstring) : jsstring := DQUOTE ++ s ++ DQUOTE.

(** [createCollapsibleContent]; [time] is the value of [Date.now()]. *)
Definition createCollapsibleContent (time : Z) (novelContent : jsstring)
           (originalText : jsstring) : jsstring :=
  let contentId := utf16 "novel_content_" ++ of_Z time in
  let shortPreview :=
    substring0 100 novelContent
    ++ (if 100 <? js_length novelContent then utf16 "..." else []) in
  LF
  ++ utf16 "<div class=" ++ quoted (utf16 "novel-injector-collapsible")
  ++ utf16 ">" ++ LF
  ++ utf16 "    <div class=" ++ quoted (utf16 "novel-injector-header")
  ++ utf16 " onclick="
  ++ quoted (utf16 "toggleNovelContent('" ++ contentId ++ utf16 "')")
  ++ utf16 ">" ++ LF
  ++ utf16 "        <strong>📖 小说内容 (点击展开/折叠)</strong>" ++ LF
  ++ utf16 "        <span class=" ++ quoted (utf16 "novel-injector-preview")
  ++ utf16 ">" ++ shortPreview ++ utf16 "</span>" ++ LF
  ++ utf16 "    </div>" ++ LF
  ++ utf16 "    <div id=" ++ quoted contentId
  ++ utf16 " class=" ++ quoted (utf16 "novel-injector-content")
  ++ utf16 " style=" ++ quoted (utf16 "display: none;") ++ utf16 ">" ++ LF
  ++ utf16 "        <div class=" ++ quoted (utf16 "novel-injector-text")
  ++ utf16 ">" ++ novelContent ++ utf16 "</div>" ++ LF
  ++ utf16 "    </div>" ++ LF
  ++ utf16 "</div>" ++ LF
  ++ (match originalText with
      | [] => []
      | _ => LF ++ utf16 "用户原始输入: " ++ originalText
      end)
  ++ LF ++ utf16 "        ".

(** The marker appended to every formatted chunk. *)
Definition injectedMarker : jsstring := LF ++ LF ++ utf16 "[小说注入器 - 自动注入]".

Definition formatChunkContent (w : World) (chunk : Chunk)
           (originalText : jsstring) : jsstring :=
  let novel := match activeNovelId (engine w) with
               | Some novelId => novels w !! novelId
               | None => None
               end in
  let settings := settings (engine w) in
  let prefixed :=
    match Config.prefixTemplate settings with
    | Some (c :: t) =>
      let prefix :=
        replace
          (replace
             (replace
                (replace
                   (replace (c :: t) (utf16 "{title}")
                            (or_else (title <$> novel) (utf16 "未知小说")))
                   (utf16 "{chapter}")
                   (or_else (Some (chapter chunk)) (utf16 "1")))
                (utf16 "{start_para}") (of_Z (startParagraph chunk + 1)))
             (utf16 "{end_para}") (of_Z (endParagraph chunk)))
          (utf16 "{progress}")
          (of_Z (endParagraph chunk) ++ utf16 "/"
           ++ of_Z (match novel with
                    | Some novel => totalParagraphs novel
                    | None => 0
                    end)) in
      prefix ++ LF ++ LF
    | _ => []
    end in
  let body :=
    if Config.collapseContent settings
    then createCollapsibleContent (now w) (content chunk) originalText
    else content chunk in
  (prefixed ++ body) ++ injectedMarker.

(** *** Producing and sending a chunk *)

Definition getNextChunk : M (option Chunk) :=
  e ← reads engine;
  match activeNovelId e with
  | Some (c :: r) =>
    let novelId := c :: r in
    novel ← FileManager.getNovel novelId;
    match novel with
    | None => mret None
    | Some novel =>
      if totalParagraphs novel <=? currentParagraph novel then mret None
      else
        FileManager.reloadNovelContent novelId;;
        chunk ← reads (fun w =>
                   TextProcessor.getNextChunk (processorSettings (engine w))
                     (novels w) novelId (currentParagraph novel));
        match chunk with
        | Some chunk =>
          FileManager.updateProgress novelId (endParagraph chunk);;
          mret (Some chunk)
        | None => mret None
        end
    end
  | _ => mret None
  end.

Definition sendNovelChunk (chunk : Chunk) (originalText : jsstring) : M unit :=
  formattedContent ← reads (fun w => formatChunkContent w chunk originalText);
  originalSendMessage formattedContent.

Definition disable : M unit :=
  update_engine (set_enablement false None);;
  e ← reads engine;
  (if timer_set (autoPilotTimer e) then
     clearTimeout (default 0 (autoPilotTimer e));;
     update_engine (set_autoPilotTimer None)
   else mret tt);;
  saveSettings;;
  toastr info (utf16 "小说注入器已禁用").

Definition enable (novelId : jsstring) : M unit :=
  update_engine (set_enablement true (Some novelId));;
  saveSettings;;
  toastr success (utf16 "小说注入器已启用").

Definition setAutoPilot (enabled : bool) (delay : Z) : M unit :=
  update_engine (set_autoPilot enabled (delay * 1000));;
  saveSettings;;
  toastr info (utf16 "自动驾驶模式"
               ++ (if enabled then utf16 "已启用" else utf16 "已禁用")).

Definition handleInterception (originalText : jsstring) : M unit :=
  try_catch
    (nextChunk ← getNextChunk;
     match nextChunk with
     | None =>
       toastr warning (utf16 "小说已读完，已切换回正常模式");;
       disable;;
       originalSendMessage originalText
     | Some chunk =>
       sendNovelChunk chunk originalText;;
       e ← reads engine;
       perform (Emitted (utf16 "chunkInjected") (activeNovelId e) chunk)
     end)
    (fun message =>
       toastr error (utf16 "注入失败: " ++ message);;
       originalSendMessage originalText).

(** The function installed as [window.sendTextareaMessage]: the act-path. *)
Definition sendTextareaMessage (text : jsstring) : M unit :=
  e ← reads engine;
  if shouldInterceptMessage e text then handleInterception text
  else originalSendMessage text.

Definition manualInject (userInput : jsstring) : M unit :=
  e ← reads engine;
  if negb (isEnabled e) || negb (truthy (activeNovelId e)) then
    toastr warning (utf16 "请先启用插件并选择小说")
  else handleInterception userInput.

Definition triggerAutoPilotInjection : M unit :=
  e ← reads engine;
  if negb (isAutoPilotEnabled e) || negb (isEnabled e) then mret tt
  else try_catch (manualInject []) (fun _ => mret tt).

(** The handler of the turn-complete signal. *)
Definition onAIMessageReceived : M unit :=
  e ← reads engine;
  if negb (isAutoPilotEnabled e) || negb (isEnabled e)
     || negb (truthy (activeNovelId e))
  then mret tt
  else
    (if timer_set (autoPilotTimer e)
     then clearTimeout (default 0 (autoPilotTimer e))
     else mret tt);;
    h ← setTimeout (autoPilotDelay e);
    update_engine (set_autoPilotTimer (Some h)).

End InjectionEngine.

(* ===================================================================== *)
(** ** The host drives the system                                        *)
(* ===================================================================== *)

Inductive Input :=
| Send (text : jsstring)           (* the user sends a message *)
| TurnComplete                     (* the other party's message arrived *)
| Elapse (dt : Z)                  (* time passes *)
| Fire (h : Z)                     (* the host runs a timer that is due *)
| Enable (novelId : jsstring)
| Disable
| SetAutoPilot (enabled : bool) (delay : Z)
| ManualInject (userInput : jsstring).

(** A pending timer that is due leaves the list and its callback runs;
    any other handle does nothing. *)
Definition fire (h : Z) : M unit :=
  w ← reads (fun w => w);
  if existsb (fun t => (handle t =? h) && (due t <=? now w)) (timers w) then
    InjectionEngine.clearTimeout h;;
    InjectionEngine.triggerAutoPilotInjection
  else mret tt.

Definition react (input : Input) : M unit :=
  match input with
  | Send text => InjectionEngine.sendTextareaMessage text
  | TurnComplete => InjectionEngine.onAIMessageReceived
  | Elapse dt => update (fun w => with_now w (now w + Z.max 0 dt))
  | Fire h => fire h
  | Enable novelId => InjectionEngine.enable novelId
  | Disable => InjectionEngine.disable
  | SetAutoPilot enabled delay => InjectionEngine.setAutoPilot enabled delay
  | ManualInject userInput => InjectionEngine.manualInject userInput
  end.

Definition step (w : World) (input : Input) : World := snd (react input w).

Definition run (w : World) (inputs : list Input) : World :=
  foldl step w inputs.

(** The system as [init] leaves it for the stored settings: the engine
    fields are read from them as [loadSettings] does, the text processor
    holds the same settings, no timer is armed and nothing was done yet. *)
Definition initial (novels : gmap jsstring Novel)
           (server : jsstring -> Outcome jsstring) (settings : Config.t)
  : World :=
  mkWorld novels
          (mkEngine (Config.enabled settings)
                    (match Config.activeNovelId settings with
                     | Some (c :: r) => Some (c :: r)
                     | _ => None
                     end)
                    settings
                    (Config.autopilotEnabled settings)
                    (if Config.autopilotDelay settings =? 0 then 3000
                     else Config.autopilotDelay settings)
                    None settings)
          ((fun novel => with_paragraphs novel None) <$> novels)
          (Some settings) server [] 1 0 [].

(* ===================================================================== *)
(** ** Sample worlds                                                     *)
(* ===================================================================== *)

Definition demo_id : jsstring := utf16 "lq3x9demo".

Definition demo_novel (paragraphs : list jsstring) (cursor : Z) : Novel :=
  mkNovel demo_id (utf16 "lq3x9demo_demo.txt") (utf16 "demo.txt") (utf16 "demo")
          (array_length paragraphs) cursor (utf16 "2024-01-01T00:00:00.000Z")
          1024 (Some paragraphs).

Definition no_server : jsstring -> Outcome jsstring :=
  fun _ => Thrown (utf16 "读取文件失败: 404").

(** Settings with the engine enabled on the demo novel. *)
Definition demo_settings (target : option Z) (prefix : option jsstring)
           (collapse : bool) : Config.t :=
  Config.mk true (Some demo_id) true 3000 target prefix collapse.

Definition demo_world (paragraphs : list jsstring) (cursor : Z)
           (settings : Config.t) : World :=
  initial {[ demo_id := demo_novel paragraphs cursor ]} no_server settings.

Definition cursor_of (w : World) : option Z :=
  currentParagraph <$> novels w !! demo_id.

(** A paragraph of 100 words that does not end a sentence, and a short
    one after it. *)
Definition open_paragraph : jsstring := concat (replicate 100 (utf16 "夜")).

Definition short_paragraph : jsstring := utf16 "天还没亮".

(** The ranges of the chunks a world has injected, in order. *)
Definition emitted_ranges (w : World) : list (Z * Z) :=
  omap (fun e => match e with
                 | Emitted _ _ chunk => Some (startParagraph chunk, endParagraph chunk)
                 | _ => None
                 end) (effects w).

(** The texts a world has handed to the dispatch boundary, in order. *)
Definition delivered (w : World) : list jsstring :=
  omap (fun e => match e with
                 | Deliver text => Some text
                 | _ => None
                 end) (effects w).

(** The prefix template the settings panel shows by default. *)
Definition default_prefix : jsstring :=
  utf16 "第{title}章 段落{start_para}-{end_para}" ++ LF ++ LF.

(* ===================================================================== *)
(** ** Autopilot timers                                                  *)
(* ===================================================================== *)

(** The guard of [onAIMessageReceived]: autopilot on, controller enabled,
    a novel active. *)
Definition autopilot_ready (e : Engine) : bool :=
  isAutoPilotEnabled e && isEnabled e && truthy (activeNovelId e).

(** What the timers look like from the engine: the pending timers, the
    next handle, and the handle the engine holds. *)
Definition timer_view (w : World) : list Timer * Z * option Z :=
  (timers w, nextHandle w, autoPilotTimer (engine w)).

(** Handles are positive and below the next one, and a pending timer is
    the one the engine holds: so at most one is pending. *)
Definition timers_ok (w : World) : Prop :=
  0 < nextHandle w /\
  (forall h : Z, autoPilotTimer (engine w) = Some h -> 0 < h < nextHandle w) /\
  (timers w = []
   \/ exists t : Timer,
        timers w = [t] /\ autoPilotTimer (engine w) = Some (handle t)).

(* ===================================================================== *)
(** ** Cursors                                                           *)
(* ===================================================================== *)

(** Every novel with at least one paragraph has its cursor on one of its
    paragraphs: below [totalParagraphs]. *)
Definition cursors_short (novels : gmap jsstring Novel) : Prop :=
  forall (novelId : jsstring) (novel : Novel),
    novels !! novelId = Some novel ->
    1 <= totalParagraphs novel ->
    0 <= currentParagraph novel < totalParagraphs novel.

(** [frame w w1]: [w1] is [w] but for the novels and their stored
    metadata. *)
Definition frame (w w1 : World) : Prop :=
  w1 = with_storedNovels (with_novels w (novels w1)) (storedNovels w1).

(** Unfolds the plumbing of [M], so that a method applied to a world
    reduces to the world it returns. *)
Ltac unfold_m :=
  unfold mbind, M_bind, mret, M_ret, reads, update_engine, perform, update,
    throw, try_catch in *.

(* ===================================================================== *)
(** ** The other methods of [core/fileManager.js]                        *)
(* ===================================================================== *)

Module FileManagerOps.

(** The characters the class [[^/.]] leaves out. *)
Definition is_slash_or_dot (c : unit16) : bool :=
  unit_eqb c 47%N || unit_eqb c 46%N.

(** [fileName.replace(/\.[^/.]+$/, "")]: the leftmost dot that is followed,
    up to the end, by one or more characters other than [/] and [.], goes
    with everything after it. *)
Fixpoint extractTitle (fileName : jsstring) : jsstring :=
  match fileName with
  | [] => []
  | c :: r =>
    if unit_eqb c 46%N
       && negb (js_length r =? 0)
       && forallb (fun d => negb (is_slash_or_dot d)) r
    then []
    else c :: extractTitle r
  end.

(** [xs.slice(start, end)] for integers: a negative index counts from the
    end, and both are brought into the array. *)
Definition js_slice {A} (xs : list A) (start final : Z) : list A :=
  let len := array_length xs in
  let k := if start <? 0 then Z.max (len + start) 0 else Z.min start len in
  let e := if final <? 0 then Z.max (len + final) 0 else Z.min final len in
  take (Z.to_nat (e - k)) (drop (Z.to_nat k) xs).

Definition getParagraphs (novels : gmap jsstring Novel) (novelId : jsstring)
           (startIndex endIndex : Z) : list jsstring :=
  match novels !! novelId with
  | None => []
  | Some novel =>
    match paragraphs novel with
    | None => []
    | Some ps => js_slice ps startIndex endIndex
    end
  end.

(** [init]: every novel of the storage is put into the map.  The source
    puts the stored objects themselves there, so until [saveNovelsData]
    stores fresh records the map and the storage share them. *)
Definition init : M unit :=
  update (fun w => with_novels w (storedNovels w ∪ novels w)).

(** [deleteNovel]; [response] is what the request to the server gives:
    it throws when the request fails, and returns [response.ok]
    otherwise.  The novel leaves the map whatever the server answered. *)
Definition deleteNovel (response : Outcome bool) (novelId : jsstring) : M bool :=
  novel ← FileManager.getNovel novelId;
  match novel with
  | None => throw (utf16 "小说不存在")
  | Some novel =>
    try_catch
      (_ ← (fun w => (response, w));
       update (fun w => with_novels w (delete novelId (novels w)));;
       FileManager.saveNovelsData;;
       mret true)
      (fun message => throw (utf16 "删除失败: " ++ message))
  end.

End FileManagerOps.

(* ===================================================================== *)
(** ** The other methods of [core/injectionEngine.js]                    *)
(* ===================================================================== *)

Module EngineOps.

(** [loadSettings]: the stored settings, or an empty object, and the
    fields of the engine read from them. *)
Definition loadSettings : M unit :=
  update (fun w =>
    let s := default Config.empty (storedSettings w) in
    with_engine w
      (mkEngine (Config.enabled s)
                (match Config.activeNovelId s with
                 | Some (c :: r) => Some (c :: r)
                 | _ => None
                 end)
                (processorSettings (engine w))
                (Config.autopilotEnabled s)
                (if Config.autopilotDelay s =? 0 then 3000
                 else Config.autopilotDelay s)
                (autoPilotTimer (engine w))
                s)).


(** [init], without the wiring to the host: the settings are loaded and
    handed to the text processor. *)
Definition init : M unit :=
  loadSettings;;
  update_engine (fun e =>
    mkEngine (isEnabled e) (activeNovelId e) (settings e)
             (isAutoPilotEnabled e) (autoPilotDelay e) (autoPilotTimer e)
             (settings e)).


End EngineOps.

(* ===================================================================== *)
(** ** [NovelManager]: the chunker of the server side                    *)
(* ===================================================================== *)

Module NovelManager.

(** An entry of [novelParagraphs]. *)
Record Paragraph := mkParagraph { text : jsstring; chapter : jsstring }.

(** The fields [getNextChunk] and [resetProgress] use. *)
Record State := mkState {
  novelParagraphs : list Paragraph;
  currentIndex : Z
}.

(** The object [getNextChunk] returns; [end_para] is the index of the last
    paragraph taken. *)
Record Chunk := mkChunk {
  chunk_text : jsstring;
  start_para : Z;
  end_para : Z;
  chunk_chapter : jsstring
}.

(** The variables of the loop. *)
Record Gather := mkGather {
  currentText : jsstring;
  endPara : Z;
  gathered_chapter : jsstring
}.

(** The [for] loop of [getNextChunk] from index [i]; reading
    [novelParagraphs[i].chapter] outside the array throws. *)
Fixpoint gather (fuel : nat) (ps : list Paragraph) (chunkSize : Z) (i : Z)
         (g : Gather) : Outcome Gather :=
  match fuel with
  | O => Returned g
  | S fuel' =>
    if i <? array_length ps then
      match at_index ps i with
      | None => Thrown (utf16 "Cannot read properties of undefined")
      | Some para =>
        let g' := mkGather (currentText g ++ text para ++ LF ++ LF) i
                           (match gathered_chapter g with
                            | [] => chapter para
                            | c => c
                            end) in
        if chunkSize <=? js_length (currentText g') then Returned g'
        else gather fuel' ps chunkSize (i + 1) g'
      end
    else Returned g
  end.

Definition getNextChunk (chunkSize : Z) (st : State)
  : Outcome (option Chunk) * State :=
  if (array_length (novelParagraphs st) =? 0)
     || (array_length (novelParagraphs st) - 1 <=? currentIndex st)
  then (Returned None, st)
  else
    let startPara := currentIndex st + 1 in
    match gather (Z.to_nat (array_length (novelParagraphs st) - startPara))
                 (novelParagraphs st) chunkSize startPara
                 (mkGather [] startPara []) with
    | Thrown message => (Thrown message, st)
    | Returned g =>
      (Returned (Some (mkChunk (trim (currentText g)) startPara (endPara g)
                               (gathered_chapter g))),
       mkState (novelParagraphs st) (endPara g))
    end.

Definition resetProgress (st : State) : State :=
  mkState (novelParagraphs st) (-1).

(** Calls of [getNextChunk] until it returns [null], at most [fuel] of
    them: the chunks, and the state at the end. *)
Fixpoint drain (fuel : nat) (chunkSize : Z) (st : State)
  : list Chunk * State :=
  match fuel with
  | O => ([], st)
  | S fuel' =>
    match getNextChunk chunkSize st with
    | (Returned (Some chunk), st') =>
      let (chunks, st'') := drain fuel' chunkSize st' in
      (chunk :: chunks, st'')
    | (_, st') => ([], st')
    end
  end.

(** The paragraphs a chunk stands for. *)
Definition covered (ps : list Paragraph) (chunk : Chunk) : list Paragraph :=
  take (Z.to_nat (end_para chunk - start_para chunk + 1))
       (drop (Z.to_nat (start_para chunk)) ps).

(** The text the loop builds from a run of paragraphs: each one followed
    by a blank line. *)
Definition joined (ps : list Paragraph) : jsstring :=
  concat (map (fun p => text p ++ LF ++ LF) ps).

End NovelManager.

(* ===================================================================== *)
(** ** What the storage holds                                            *)
(* ===================================================================== *)

(** The metadata of a novel: the novel without its paragraphs. *)
Definition metadata (novel : Novel) : Novel := with_paragraphs novel None.



(** A novel as [init] brings it back: its text is on the server and its
    paragraphs are not in memory. *)
Definition unloaded_novel : Novel :=
  with_paragraphs (demo_novel three_paragraphs 1) None.

(** A file of two paragraphs with a blank line between them. *)
Definition two_paragraph_text : jsstring :=
  utf16 "第一章 开端" ++ LF ++ LF ++ utf16 "他走进了房间。" ++ LF.

(** A server that has this file under every name. *)
Definition two_paragraph_server : jsstring -> Outcome jsstring :=
  fun _ => Returned two_paragraph_text.
Example utf16_marker :
  utf16 "[小说注入器]" = [91; 23567; 35828; 27880; 20837; 22120; 93]%N.
Proof. reflexivity. Qed.

Example utf16_book : utf16 "📖" = [55357; 56534]%N.
Proof. reflexivity. Qed.

Example split_spaces_ends :
  split_spaces [] false (utf16 " a  b ") = [[]; utf16 "a"; utf16 "b"; []].
Proof. reflexivity. Qed.

Example of_Z_neg : of_Z (-12) = utf16 "-12".
Proof. reflexivity. Qed.

Example countWords_mixed : countWords (Some (utf16 "  他说 hello world。 ")) = 5.
Proof. reflexivity. Qed.

Example countWords_undefined : countWords None = 0.
Proof. reflexivity. Qed.

Example isGoodBreakPoint_cjk : isGoodBreakPoint (Some (utf16 "他走进了房间。")) = true.
Proof. reflexivity. Qed.

Example isGoodBreakPoint_open : isGoodBreakPoint (Some (utf16 "他走进了房间")) = false.
Proof. reflexivity. Qed.

Example extractChapter_heading :
  extractChapter (utf16 "第一章 开端") 0 = utf16 "第一章 开端".
Proof. reflexivity. Qed.

Example extractChapter_english :
  extractChapter (LF ++ utf16 "  chapter  12: Dawn") 7 = utf16 "chapter  12: Dawn".
Proof. reflexivity. Qed.

Example extractChapter_fallback :
  extractChapter (utf16 "他走进了房间。") 120 = utf16 "第3章".
Proof. reflexivity. Qed.


Example countWords_ideographic_space : countWords (Some (utf16 "a　b")) = 3.
Proof. reflexivity. Qed.

Example isGoodBreakPoint_blank : isGoodBreakPoint (Some (utf16 "   ")) = false.
Proof. reflexivity. Qed.

Example extractChapter_numbered :
  extractChapter (utf16 "前言" ++ LF ++ utf16 "十二、夜行") 3 = utf16 "十二、夜行".
Proof. reflexivity. Qed.
Example next_chunk_all :
  next_chunk three_paragraphs 500 0
  = Some (mkChunk (utf16 "第一章 开端" ++ LF ++ LF ++ utf16 "他走进了房间。"
                   ++ LF ++ LF ++ utf16 "他看了看四周，房间很小。")
                  0 3 3 24 (utf16 "第一章 开端")).
Proof. reflexivity. Qed.

Example next_chunk_two :
  option_map (fun c => (startParagraph c, endParagraph c, wordCount c))
             (next_chunk three_paragraphs 12 0)
  = Some (0, 2, 12).
Proof. reflexivity. Qed.

Example next_chunk_empty : next_chunk [] 500 0 = None.
Proof. reflexivity. Qed.

(* ===================================================================== *)
(** ** What one walk of the chunker consumes                             *)
(* ===================================================================== *)

Section Walks.

Variable paragraphs : list jsstring.
Variable targetWordCount : Z.


Lemma slice_length i n : length (slice paragraphs i n) = n.
Proof. revert i; induction n as [|n IH]; intros i; simpl; [done | by rewrite IH]. Qed.

Lemma running_S w0 i m :
  running paragraphs w0 i (S m) = running paragraphs (w0 + countWords (at_index paragraphs i)) (i + 1) m.
Proof. unfold running; simpl; lia. Qed.


Lemma accepted_within_S w0 i n :
  (0 < w0 -> w0 + countWords (at_index paragraphs i) <= targetWordCount) ->
  accepted_within paragraphs targetWordCount (w0 + countWords (at_index paragraphs i)) (i + 1) n ->
  accepted_within paragraphs targetWordCount w0 i (S n).
Proof.
  intros H0 Hrest [|m] Hm Hpos.
  - unfold running in *; cbn [slice words] in *.
    replace (i + Z.of_nat 0) with i by lia.
    rewrite Z.add_0_r in *. by apply H0.
  - rewrite running_S in *.
    replace (i + Z.of_nat (S m)) with (i + 1 + Z.of_nat m) by lia.
    apply Hrest; [lia | done].
Qed.

(** The loop from [i], entered with [walkEnd w = i]: it accepts some
    number [n] of paragraphs, all of them inside the array, each one
    passing the acceptance test; and when the fuel covers the rest of the
    array it stops either at the end of the array or with content in
    the chunk. *)
Lemma collect_spec fuel : forall i w,
  0 < targetWordCount ->
  walkEnd w = i ->
  exists n : nat,
    (n <= fuel)%nat /\
    (n = 0%nat \/ i + Z.of_nat n <= array_length paragraphs) /\
    collect fuel paragraphs targetWordCount i w = after paragraphs w i n /\
    accepted_within paragraphs targetWordCount (totalWordCount w) i n /\
    (array_length paragraphs - i <= Z.of_nat fuel ->
     array_length paragraphs <= i + Z.of_nat n
     \/ 0 < running paragraphs (totalWordCount w) i n).
Proof.
  induction fuel as [|fuel IH]; intros i w HB Hend.
  - exists 0%nat. unfold after, running, accepted_within; simpl.
    rewrite app_nil_r, !Z.add_0_r, <- Hend.
    split; [lia|]. split; [by left|]. split; [by destruct w|].
    split; [lia|]. intros; lia.
  - cbn [collect].
    destruct (i <? array_length paragraphs) eqn:Hguard.
    2:{ exists 0%nat. unfold after, running, accepted_within; simpl.
        rewrite app_nil_r, !Z.add_0_r, <- Hend.
        split; [lia|]. split; [by left|]. split; [by destruct w|].
        split; [lia|]. intros _. left. lia. }
    apply Z.ltb_lt in Hguard.
    set (wc := countWords (at_index paragraphs i)).
    destruct ((0 <? totalWordCount w) && (targetWordCount <? totalWordCount w + wc))
      eqn:Hover.
    { apply andb_true_iff in Hover as [Hpos _]. apply Z.ltb_lt in Hpos.
      exists 0%nat. unfold after, running, accepted_within; simpl.
      rewrite app_nil_r, !Z.add_0_r, <- Hend.
      split; [lia|]. split; [by left|]. split; [by destruct w|].
      split; [lia|]. intros _. right. lia. }
    assert (Hfirst : 0 < totalWordCount w ->
                     totalWordCount w + wc <= targetWordCount).
    { intros Hpos. apply andb_false_iff in Hover as [Hf|Hf].
      - apply Z.ltb_ge in Hf. lia.
      - apply Z.ltb_ge in Hf. lia. }
    set (w' := mkWalk (collectedParagraphs w ++ [at_index paragraphs i])
                      (totalWordCount w + wc) (i + 1)).
    assert (Hone : after paragraphs w i 1 = w').
    { unfold after, running, w'; simpl. f_equal. fold wc. lia. }
    assert (Hstop : targetWordCount <= totalWordCount w' ->
      exists n : nat,
        (n <= S fuel)%nat /\
        (n = 0%nat \/ i + Z.of_nat n <= array_length paragraphs) /\
        w' = after paragraphs w i n /\
        accepted_within paragraphs targetWordCount (totalWordCount w) i n /\
        (array_length paragraphs - i <= Z.of_nat (S fuel) ->
         array_length paragraphs <= i + Z.of_nat n
         \/ 0 < running paragraphs (totalWordCount w) i n)).
    { intros Hreach. exists 1%nat.
      split; [lia|]. split; [right; lia|]. split; [done|].
      split.
      - apply accepted_within_S; [done|]. intros m Hm; lia.
      - intros _. right. unfold running; simpl. fold wc.
        simpl in Hreach. lia. }
    assert (Hgo :
      exists n : nat,
        (n <= S fuel)%nat /\
        (n = 0%nat \/ i + Z.of_nat n <= array_length paragraphs) /\
        collect fuel paragraphs targetWordCount (i + 1) w' = after paragraphs w i n /\
        accepted_within paragraphs targetWordCount (totalWordCount w) i n /\
        (array_length paragraphs - i <= Z.of_nat (S fuel) ->
         array_length paragraphs <= i + Z.of_nat n
         \/ 0 < running paragraphs (totalWordCount w) i n)).
    { destruct (IH (i + 1) w' HB eq_refl)
        as (n & Hle & Hin & Heq & Hacc & Hfin).
      exists (S n). split; [lia|]. split.
      { right. destruct Hin as [->|Hin]; lia. }
      split.
      { rewrite Heq. unfold after, w'; simpl.
        rewrite <- app_assoc; simpl. fold wc.
        rewrite running_S. fold wc. f_equal. lia. }
      split.
      { apply accepted_within_S; [done|]. exact Hacc. }
      intros Hfuel. rewrite running_S. fold wc.
      destruct Hfin as [Hfin|Hfin]; [lia | left; lia | right; exact Hfin]. }
    destruct (targetWordCount <=? totalWordCount w') eqn:Hreach.
    + apply Z.leb_le in Hreach.
      destruct (isGoodBreakPoint (at_index paragraphs i)); [by apply Hstop|].
      destruct ((i + 1 <? array_length paragraphs)
                && (countWords (at_index paragraphs (i + 1)) <? 100));
        [exact Hgo | by apply Hstop].
    + exact Hgo.
Qed.

End Walks.

Lemma countWords_nonneg text : 0 <= countWords text.
Proof.
  unfold countWords, array_length. destruct text as [text|]; [|lia].
  destruct (js_length (trim text) =? 0); lia.
Qed.

Lemma words_nonneg paragraphs i n : 0 <= words (slice paragraphs i n).
Proof.
  revert i; induction n as [|n IH]; intros i; simpl; [lia|].
  pose proof (countWords_nonneg (at_index paragraphs i)). specialize (IH (i + 1)). lia.
Qed.

(** Inside the array the reads of a walk are the paragraphs themselves, in
    order. *)
Lemma slice_in_range paragraphs i n :
  0 <= i -> i + Z.of_nat n <= array_length paragraphs ->
  slice paragraphs i n = Some <$> take n (drop (Z.to_nat i) paragraphs).
Proof.
  revert i; induction n as [|n IH]; intros i Hi Hn; [done|].
  unfold array_length in Hn. cbn [slice].
  rewrite IH by (unfold array_length; lia).
  unfold at_index. destruct (i <? 0) eqn:Hneg; [apply Z.ltb_lt in Hneg; lia|].
  replace (Z.to_nat (i + 1)) with (S (Z.to_nat i)) by lia.
  destruct (paragraphs !! Z.to_nat i) as [p|] eqn:Hp.
  - rewrite (drop_S _ _ _ Hp). done.
  - apply lookup_ge_None in Hp. lia.
Qed.

(** The fuel given by [next_chunk] is enough: more of it changes nothing,
    so the walk always leaves by a test of the source. *)
Lemma collect_enough paragraphs B fuel : forall fuel' i w,
  array_length paragraphs - i <= Z.of_nat fuel ->
  array_length paragraphs - i <= Z.of_nat fuel' ->
  collect fuel paragraphs B i w = collect fuel' paragraphs B i w.
Proof.
  induction fuel as [|fuel IH]; intros [|fuel'] i w H1 H2; cbn [collect]; try done.
  - destruct (i <? array_length paragraphs) eqn:Hg; [apply Z.ltb_lt in Hg; lia | done].
  - destruct (i <? array_length paragraphs) eqn:Hg; [apply Z.ltb_lt in Hg; lia | done].
  - destruct (i <? array_length paragraphs) eqn:Hg; [|done].
    rewrite (IH fuel' (i + 1)) by lia. done.
Qed.

(** [next_chunk] inside the array: the chunk is made of the [n >= 1]
    paragraphs from the start index. *)
Lemma next_chunk_spec paragraphs B s :
  0 < B -> s < array_length paragraphs ->
  exists n : nat,
    (1 <= n)%nat /\
    s + Z.of_nat n <= array_length paragraphs /\
    next_chunk paragraphs B s
    = Some (mkChunk (join (LF ++ LF) (slice paragraphs s n)) s (s + Z.of_nat n)
                    (Z.of_nat n) (words (slice paragraphs s n))
                    (extractChapter (join (LF ++ LF) (slice paragraphs s n)) s)) /\
    accepted_within paragraphs B 0 s n /\
    (array_length paragraphs <= s + Z.of_nat n
     \/ 0 < words (slice paragraphs s n)).
Proof.
  intros HB Hs. unfold next_chunk.
  destruct (array_length paragraphs <=? s) eqn:Hge; [apply Z.leb_le in Hge; lia|].
  destruct (collect_spec paragraphs B
              (Z.to_nat (array_length paragraphs - s)) s (mkWalk [] 0 s) HB eq_refl)
    as (n & Hle & Hin & Heq & Hacc & Hfin).
  specialize (Hfin ltac:(lia)). unfold running in Hfin. simpl in Hfin.
  assert (Hn : (1 <= n)%nat).
  { destruct n; [|lia]. simpl in Hfin. lia. }
  exists n. split; [done|]. split; [destruct Hin; lia|].
  rewrite Heq. unfold after, running, array_length; simpl.
  rewrite slice_length.
  destruct (Z.of_nat n =? 0) eqn:Hz; [apply Z.eqb_eq in Hz; lia|].
  split; [done|]. split; [done|].
  destruct Hfin as [Hfin|Hfin]; [left | right]; done.
Qed.


(* ===================================================================== *)
(** ** The chunker on a loaded novel                                     *)
(* ===================================================================== *)

Lemma getNextChunk_loaded (settings : Config.t) (novels : gmap jsstring Novel)
      (novelId : jsstring) (novel : Novel) (ps : list jsstring) (s : Z) :
  novels !! novelId = Some novel ->
  paragraphs novel = Some ps ->
  TextProcessor.getNextChunk settings novels novelId s
  = next_chunk ps (target_of settings) s.
Proof. intros Hn Hp. unfold TextProcessor.getNextChunk. by rewrite Hn, Hp. Qed.

Lemma next_chunk_past_end ps B s :
  array_length ps <= s -> next_chunk ps B s = None.
Proof.
  intros H. unfold next_chunk.
  destruct (array_length ps <=? s) eqn:E; [done | apply Z.leb_gt in E; lia].
Qed.

(** The first pass of the loop accepts whatever it reads, for any budget:
    the overshoot test needs a count above 0. *)
Lemma collect_first fuel ps B i :
  i < array_length ps ->
  collectedParagraphs (collect (S fuel) ps B i (mkWalk [] 0 i)) <> [].
Proof.
  intros Hi. cbn [collect totalWordCount collectedParagraphs].
  destruct (i <? array_length ps) eqn:Hg; [|apply Z.ltb_ge in Hg; lia].
  cbn [Z.ltb Z.compare andb app].
  assert (Hgrow : forall f j (w : Walk),
             collectedParagraphs w <> [] ->
             collectedParagraphs (collect f ps B j w) <> []).
  { induction f as [|f IH]; intros j w Hw; cbn [collect]; [done|].
    destruct (j <? array_length ps); [|done].
    destruct ((0 <? totalWordCount w) && _); [done|].
    assert (Hw' : collectedParagraphs w ++ [at_index ps j] <> [])
      by (destruct (collectedParagraphs w); done).
    repeat match goal with
           | |- context [if ?b then _ else _] => destruct b
           end; try (apply IH); done. }
  repeat match goal with
         | |- context [if ?b then _ else _] => destruct b
         end; try (apply Hgrow); done.
Qed.

Lemma next_chunk_in_range ps B s :
  s < array_length ps -> next_chunk ps B s <> None.
Proof.
  intros Hs. unfold next_chunk.
  destruct (array_length ps <=? s) eqn:E; [apply Z.leb_le in E; lia|].
  destruct (Z.to_nat (array_length ps - s)) as [|fuel] eqn:Hfuel; [lia|].
  pose proof (collect_first fuel ps B s Hs) as Hne.
  destruct (collectedParagraphs (collect (S fuel) ps B s (mkWalk [] 0 s)))
    as [|p r] eqn:Hc; [done|].
  unfold array_length. simpl. done.
Qed.

(** C10. For every paragraph sequence and every positive budget the
    chunker returns no chunk exactly when the start index is at or past
    the end of the sequence; for the empty sequence and cursor 0 it
    returns no chunk. *)
Theorem no_chunk_iff_past_end
        (settings : Config.t) (novels : gmap jsstring Novel)
        (novelId : jsstring) (novel : Novel) (ps : list jsstring) (s : Z) :
  novels !! novelId = Some novel ->
  paragraphs novel = Some ps ->
  0 < target_of settings ->
  (TextProcessor.getNextChunk settings novels novelId s = None
   <-> array_length ps <= s)
  /\ (ps = [] -> TextProcessor.getNextChunk settings novels novelId 0 = None).
Proof.
  intros Hn Hp _. rewrite !(getNextChunk_loaded _ _ _ _ _ _ Hn Hp). split.
  - split.
    + intros Hnone. destruct (Z_lt_le_dec s (array_length ps)) as [Hlt|Hge]; [|done].
      by apply next_chunk_in_range with (B := target_of settings) in Hlt.
    + apply next_chunk_past_end.
  - intros ->. done.
Qed.

Lemma no_chunk_iff_past_end_witness :
  let settings := demo_settings None None false in
  let novels : gmap jsstring Novel := {[ demo_id := demo_novel [] 0 ]} in
  (TextProcessor.getNextChunk settings novels demo_id 0 = None
   <-> array_length (@nil jsstring) <= 0)
  /\ (@nil jsstring = [] -> TextProcessor.getNextChunk settings novels demo_id 0 = None).
Proof.
  apply (no_chunk_iff_past_end (demo_settings None None false)
           {[ demo_id := demo_novel [] 0 ]} demo_id (demo_novel [] 0) [] 0).
  - reflexivity.
  - reflexivity.
  - reflexivity.
Defined.

(** Once the running count has reached the budget, a next paragraph with
    at least one word is left for the next chunk. *)
Lemma budget_reached_stops ps B s n m :
  0 < B ->
  accepted_within ps B 0 s n ->
  (S m <= n)%nat ->
  B <= running ps 0 s (S m) ->
  1 <= countWords (at_index ps (s + Z.of_nat (S m))) ->
  n = S m.
Proof.
  intros HB Hacc Hm Hreach Hnext.
  destruct (decide (n = S m)) as [|Hne]; [done|].
  specialize (Hacc (S m) ltac:(lia) ltac:(lia)). lia.
Qed.

(** C6. On a loaded novel, for a positive budget and a start index inside
    the array, the chunker returns a chunk of [n >= 1] paragraphs: the
    paragraphs [s], ..., [s + n - 1], joined.  Every paragraph accepted
    while the chunk had content kept the count within the budget; a
    paragraph read while the count is 0 is always accepted; and a first
    paragraph above the budget makes a chunk of exactly that paragraph. *)
Theorem acceptance_rule
        (settings : Config.t) (novels : gmap jsstring Novel)
        (novelId : jsstring) (novel : Novel) (ps : list jsstring) (s : Z) :
  novels !! novelId = Some novel ->
  paragraphs novel = Some ps ->
  0 < target_of settings ->
  0 <= s < array_length ps ->
  exists (chunk : Chunk) (n : nat),
    TextProcessor.getNextChunk settings novels novelId s = Some chunk /\
    (1 <= n)%nat /\
    startParagraph chunk = s /\
    endParagraph chunk = s + Z.of_nat n /\
    endParagraph chunk <= array_length ps /\
    paragraphCount chunk = Z.of_nat n /\
    content chunk = join (LF ++ LF) (Some <$> take n (drop (Z.to_nat s) ps)) /\
    wordCount chunk = words (slice ps s n) /\
    accepted_within ps (target_of settings) 0 s n /\
    (forall m : nat, (m <= n)%nat ->
       running ps 0 s m = 0 -> s + Z.of_nat m < array_length ps -> (m < n)%nat) /\
    (target_of settings < countWords (at_index ps s) ->
       n = 1%nat /\ Some (content chunk) = at_index ps s).
Proof.
  intros Hn Hp HB [Hs0 Hs]. rewrite (getNextChunk_loaded _ _ _ _ _ _ Hn Hp).
  destruct (next_chunk_spec ps (target_of settings) s HB Hs)
    as (n & Hn1 & Hin & Heq & Hacc & Hfin).
  eexists _, n. split; [exact Heq|]. cbn [startParagraph endParagraph
    paragraphCount content wordCount].
  split; [done|]. split; [done|]. split; [done|]. split; [done|].
  split; [done|]. split; [by rewrite slice_in_range|]. split; [done|].
  split; [done|]. split.
  - intros m Hm Hzero Hin'.
    destruct (decide (m = n)) as [->|]; [|lia].
    unfold running in Hzero. lia.
  - intros Hbig.
    assert (Hone : n = 1%nat).
    { destruct n as [|[|k]]; [lia | done |].
      pose proof (Hacc 1%nat ltac:(lia)) as H1.
      unfold running in H1; cbn [slice words] in H1.
      pose proof (countWords_nonneg (at_index ps (s + Z.of_nat 1))).
      lia. }
    subst n. split; [done|]. cbn [slice join].
    unfold at_index in *. destruct (s <? 0) eqn:E; [apply Z.ltb_lt in E; lia|].
    destruct (ps !! Z.to_nat s) eqn:El; [done|].
    apply lookup_ge_None in El. unfold array_length in Hs. lia.
Qed.

Lemma acceptance_rule_witness :
  exists (chunk : Chunk) (n : nat),
    TextProcessor.getNextChunk (demo_settings (Some 12) None false)
      {[ demo_id := demo_novel three_paragraphs 0 ]} demo_id 0 = Some chunk /\
    (1 <= n)%nat /\
    startParagraph chunk = 0 /\
    endParagraph chunk = 0 + Z.of_nat n /\
    endParagraph chunk <= array_length three_paragraphs /\
    paragraphCount chunk = Z.of_nat n /\
    content chunk
    = join (LF ++ LF) (Some <$> take n (drop (Z.to_nat 0) three_paragraphs)) /\
    wordCount chunk = words (slice three_paragraphs 0 n) /\
    accepted_within three_paragraphs
      (target_of (demo_settings (Some 12) None false)) 0 0 n /\
    (forall m : nat, (m <= n)%nat ->
       running three_paragraphs 0 0 m = 0 ->
       0 + Z.of_nat m < array_length three_paragraphs -> (m < n)%nat) /\
    (target_of (demo_settings (Some 12) None false)
     < countWords (at_index three_paragraphs 0) ->
       n = 1%nat /\ Some (content chunk) = at_index three_paragraphs 0).
Proof.
  apply (acceptance_rule (demo_settings (Some 12) None false)
           {[ demo_id := demo_novel three_paragraphs 0 ]} demo_id
           (demo_novel three_paragraphs 0) three_paragraphs 0).
  - reflexivity.
  - reflexivity.
  - reflexivity.
  - split; [lia | reflexivity].
Defined.

(* ===================================================================== *)
(** ** The progress store                                                *)
(* ===================================================================== *)

Lemma frame_refl w : frame w w.
Proof. by destruct w. Qed.

Lemma frame_trans w w1 w2 : frame w w1 -> frame w1 w2 -> frame w w2.
Proof. unfold frame. intros -> ->. done. Qed.

Lemma updateProgress_found (w : World) novelId novel p :
  novels w !! novelId = Some novel ->
  FileManager.updateProgress novelId p w
  = (Returned tt,
     let m := <[novelId := with_currentParagraph novel
                 (Z.max 0 (Z.min p (totalParagraphs novel - 1)))]> (novels w) in
     with_storedNovels (with_novels w m)
                       ((fun novel => with_paragraphs novel None) <$> m)).
Proof.
  intros H. unfold FileManager.updateProgress, FileManager.getNovel,
    FileManager.saveNovelsData.
  unfold_m. rewrite H. done.
Qed.

(** C2. For a novel of the store with at least one paragraph and every
    integer [p], [updateProgress] returns and leaves the cursor between 0
    and [totalParagraphs - 1]: the cursor never reaches [totalParagraphs],
    and the exhaustion test of the controller,
    [currentParagraph >= totalParagraphs], is false after the update. *)
Theorem updateProgress_clamps (w : World) (novelId : jsstring) (novel : Novel) (p : Z) :
  novels w !! novelId = Some novel ->
  1 <= totalParagraphs novel ->
  exists (w' : World) (novel' : Novel),
    FileManager.updateProgress novelId p w = (Returned tt, w') /\
    novels w' !! novelId = Some novel' /\
    totalParagraphs novel' = totalParagraphs novel /\
    0 <= currentParagraph novel' <= totalParagraphs novel' - 1 /\
    currentParagraph novel' <> totalParagraphs novel' /\
    (totalParagraphs novel' <=? currentParagraph novel') = false.
Proof.
  intros Hn Htotal. rewrite (updateProgress_found _ _ _ _ Hn).
  eexists _, _. split; [reflexivity|]. cbn.
  split; [apply lookup_insert_eq|]. cbn.
  split; [done|]. split; [lia|]. split; [lia|]. apply Z.leb_gt. lia.
Qed.

Lemma updateProgress_clamps_witness :
  exists (w' : World) (novel' : Novel),
    FileManager.updateProgress demo_id 3
      (demo_world three_paragraphs 2 (demo_settings None None false))
    = (Returned tt, w') /\
    novels w' !! demo_id = Some novel' /\
    totalParagraphs novel' = totalParagraphs (demo_novel three_paragraphs 2) /\
    0 <= currentParagraph novel' <= totalParagraphs novel' - 1 /\
    currentParagraph novel' <> totalParagraphs novel' /\
    (totalParagraphs novel' <=? currentParagraph novel') = false.
Proof.
  apply (updateProgress_clamps
           (demo_world three_paragraphs 2 (demo_settings None None false))
           demo_id (demo_novel three_paragraphs 2) 3).
  - reflexivity.
  - vm_compute. discriminate.
Defined.

Lemma updateProgress_frame w novelId p r w1 :
  FileManager.updateProgress novelId p w = (r, w1) -> frame w w1.
Proof.
  unfold FileManager.updateProgress, FileManager.getNovel,
    FileManager.saveNovelsData. unfold_m.
  destruct (novels w !! novelId); intros [= <- <-]; unfold frame; by destruct w.
Qed.

Lemma reloadNovelContent_frame w novelId r w1 :
  FileManager.reloadNovelContent novelId w = (r, w1) -> frame w w1.
Proof.
  unfold FileManager.reloadNovelContent, FileManager.getNovel,
    FileManager.readFileContent. unfold_m.
  destruct (novels w !! novelId) as [novel|]; [|intros [= <- <-]; apply frame_refl].
  destruct (paragraphs novel); [intros [= <- <-]; apply frame_refl|].
  destruct (server w (filename novel)); intros [= <- <-];
    unfold frame; by destruct w.
Qed.

Lemma getNextChunk_frame w r w1 :
  InjectionEngine.getNextChunk w = (r, w1) -> frame w w1.
Proof.
  unfold InjectionEngine.getNextChunk, FileManager.getNovel.
  unfold mbind, M_bind, mret, M_ret, reads.
  destruct (activeNovelId (engine w)) as [[|c t]|];
    try (cbn; intros [= <- <-]; apply frame_refl).
  destruct (novels w !! _) as [novel|];
    [|cbn; intros [= <- <-]; apply frame_refl].
  destruct (totalParagraphs novel <=? currentParagraph novel);
    [cbn; intros [= <- <-]; apply frame_refl|].
  destruct (FileManager.reloadNovelContent (c :: t) w) as [[[]|msg] w2] eqn:Hr;
    [|cbn; intros [= <- <-]; by eapply reloadNovelContent_frame].
  apply reloadNovelContent_frame in Hr.
  destruct (TextProcessor.getNextChunk _ _ _ _) as [chunk|];
    [|cbn; intros [= <- <-]; done].
  destruct (FileManager.updateProgress (c :: t) (endParagraph chunk) w2)
    as [[[]|msg] w3] eqn:Hu; cbn; intros [= <- <-];
    apply updateProgress_frame in Hu; by eapply frame_trans.
Qed.

(* ===================================================================== *)
(** ** Checks of the embedding on small inputs                           *)
(* ===================================================================== *)

Example parseParagraphs_blank_lines :
  FileManager.parseParagraphs
    (utf16 "a b" ++ CR ++ LF ++ LF ++ utf16 "  " ++ LF ++ LF ++ utf16 "  c"
     ++ LF ++ utf16 "d " ++ CR ++ CR)
  = [utf16 "a b"; utf16 "c" ++ LF ++ utf16 "d"].
Proof. reflexivity. Qed.

Example parseParagraphs_empty : FileManager.parseParagraphs [] = [].
Proof. reflexivity. Qed.

Example replace_first_only :
  InjectionEngine.replace (utf16 "a{x}b{x}") (utf16 "{x}") (utf16 "[$&|$`|$'|$$|$1]")
  = utf16 "a[{x}|a|b{x}|$|$1]b{x}".
Proof. reflexivity. Qed.

Example format_direct :
  option_map
    (fun chunk =>
       InjectionEngine.formatChunkContent
         (demo_world three_paragraphs 0
            (demo_settings (Some 12)
               (Some (utf16 "《{title}》{chapter} {start_para}-{end_para} ({progress})"))
               false))
         chunk (utf16 "你好"))
    (next_chunk three_paragraphs 12 0)
  = Some (utf16 "《demo》第一章 开端 1-2 (2/3)" ++ LF ++ LF
          ++ utf16 "第一章 开端" ++ LF ++ LF ++ utf16 "他走进了房间。"
          ++ LF ++ LF ++ utf16 "[小说注入器 - 自动注入]").
Proof. vm_compute. reflexivity. Qed.

Example updateProgress_unknown :
  fst (FileManager.updateProgress (utf16 "nobody") 1
         (demo_world three_paragraphs 0 Config.empty))
  = Thrown (utf16 "小说不存在").
Proof. reflexivity. Qed.

(** A failed request for the content: the failure is reported, the
    original text is delivered, and the controller stays enabled. *)
Example interception_failure_falls_back :
  let novel := with_paragraphs (demo_novel three_paragraphs 0) None in
  let w := initial {[ demo_id := novel ]} no_server (demo_settings None None false) in
  let w' := step w (Send (utf16 "你好")) in
  effects w' = [Toast error (utf16 "注入失败: 读取文件失败: 404");
                Deliver (utf16 "你好")]
  /\ isEnabled (engine w') = true
  /\ novels w' = novels w.
Proof. vm_compute. repeat split. Qed.

(** More fuel than the length of the text changes nothing in
    [split_blank]: it always ends by running out of text. *)
Lemma after_blank_shorter s rest :
  FileManager.after_blank s = Some rest -> (length rest < length s)%nat.
Proof.
  revert rest. induction s as [|c r IH]; intros rest; cbn; [done|].
  destruct (is_space c); [|done].
  destruct (FileManager.after_blank r) as [rest'|].
  - intros [= <-]. specialize (IH _ eq_refl). lia.
  - destruct (unit_eqb c 10%N); [|done]. intros [= <-]. lia.
Qed.

Lemma split_blank_enough fuel : forall fuel' cur s,
  (length s <= fuel)%nat -> (length s <= fuel')%nat ->
  FileManager.split_blank fuel cur s = FileManager.split_blank fuel' cur s.
Proof.
  induction fuel as [|fuel IH]; intros [|fuel'] cur [|c r] H1 H2;
    cbn in *; rewrite ?app_nil_r; try done; try lia.
  destruct (unit_eqb c 10%N).
  - destruct (FileManager.after_blank r) as [rest|] eqn:Hrest.
    + apply after_blank_shorter in Hrest. f_equal. apply IH; lia.
    + apply IH; lia.
  - apply IH; lia.
Qed.

(* ===================================================================== *)
(** ** The act-path                                                      *)
(* ===================================================================== *)

(** C9. For every text and every world, when the controller is disabled
    or has no active novel, the act-path hands the text unchanged to the
    dispatch boundary and does nothing else: no chunk is produced and no
    novel changes. *)
Theorem disabled_passes_through (w : World) (text : jsstring) :
  isEnabled (engine w) = false \/ truthy (activeNovelId (engine w)) = false ->
  exists w' : World,
    InjectionEngine.sendTextareaMessage text w = (Returned tt, w') /\
    effects w' = effects w ++ [Deliver text] /\
    novels w' = novels w /\
    storedNovels w' = storedNovels w /\
    engine w' = engine w /\
    timers w' = timers w.
Proof.
  intros Hoff. eexists. split.
  - unfold InjectionEngine.sendTextareaMessage,
      InjectionEngine.shouldInterceptMessage, InjectionEngine.originalSendMessage.
    unfold_m.
    destruct Hoff as [-> | Hoff]; cbn; [reflexivity|].
    rewrite Hoff. destruct (isEnabled (engine w)); reflexivity.
  - cbn. done.
Qed.

Lemma disabled_passes_through_witness :
  exists w' : World,
    InjectionEngine.sendTextareaMessage (utf16 "你好")
      (demo_world three_paragraphs 0 Config.empty) = (Returned tt, w') /\
    effects w' = effects (demo_world three_paragraphs 0 Config.empty)
                 ++ [Deliver (utf16 "你好")] /\
    novels w' = novels (demo_world three_paragraphs 0 Config.empty) /\
    storedNovels w' = storedNovels (demo_world three_paragraphs 0 Config.empty) /\
    engine w' = engine (demo_world three_paragraphs 0 Config.empty) /\
    timers w' = timers (demo_world three_paragraphs 0 Config.empty).
Proof.
  apply (disabled_passes_through (demo_world three_paragraphs 0 Config.empty)
           (utf16 "你好")).
  left. reflexivity.
Defined.

(** A novel whose cursor has reached its paragraph count gives no chunk
    and leaves the world as it is. *)
Lemma getNextChunk_exhausted (w : World) (novelId : jsstring) (novel : Novel) :
  activeNovelId (engine w) = Some novelId ->
  truthy (Some novelId) = true ->
  novels w !! novelId = Some novel ->
  totalParagraphs novel <= currentParagraph novel ->
  InjectionEngine.getNextChunk w = (Returned None, w).
Proof.
  intros Hactive Htruthy Hnovel Hdone.
  unfold InjectionEngine.getNextChunk, FileManager.getNovel.
  unfold mbind, M_bind, mret, M_ret, reads. rewrite Hactive.
  destruct novelId as [|c t]; [done|]. rewrite Hnovel.
  destruct (totalParagraphs novel <=? currentParagraph novel) eqn:E;
    [done | apply Z.leb_gt in E; lia].
Qed.

(** C7. When the act-path runs with interception active and no chunk
    comes back, the controller ends disabled with no active novel and no
    timer, the caller is told that the novel is finished, and the only
    text handed to the dispatch boundary is the original one. *)
Theorem exhaustion_disables (w w1 : World) (text : jsstring) :
  InjectionEngine.shouldInterceptMessage (engine w) text = true ->
  InjectionEngine.getNextChunk w = (Returned None, w1) ->
  exists w' : World,
    InjectionEngine.sendTextareaMessage text w = (Returned tt, w') /\
    isEnabled (engine w) = true /\
    isEnabled (engine w') = false /\
    activeNovelId (engine w') = None /\
    InjectionEngine.timer_set (autoPilotTimer (engine w')) = false /\
    storedSettings w' = Some (settings (engine w')) /\
    Config.enabled (settings (engine w')) = false /\
    effects w'
    = effects w ++ [Toast warning (utf16 "小说已读完，已切换回正常模式");
                    Toast info (utf16 "小说注入器已禁用");
                    Deliver text] /\
    novels w' = novels w1.
Proof.
  intros Hact Hnone.
  pose proof (getNextChunk_frame _ _ _ Hnone) as Hframe.
  assert (Hon : isEnabled (engine w) = true).
  { unfold InjectionEngine.shouldInterceptMessage in Hact.
    by destruct (isEnabled (engine w)). }
  assert (Heff : effects w1 = effects w) by (by rewrite Hframe).
  assert (Hrun : forall w', 
    (InjectionEngine.toastr warning (utf16 "小说已读完，已切换回正常模式");;
     InjectionEngine.disable;;
     InjectionEngine.originalSendMessage text) w1 = (Returned tt, w') ->
    InjectionEngine.sendTextareaMessage text w = (Returned tt, w')).
  { intros w' Hw'.
    unfold InjectionEngine.sendTextareaMessage.
    unfold mbind at 1, M_bind at 1, reads at 1. rewrite Hact.
    unfold InjectionEngine.handleInterception.
    unfold try_catch, mbind at 1, M_bind at 1. rewrite Hnone.
    by rewrite Hw'. }
  destruct (InjectionEngine.timer_set (autoPilotTimer (engine w1))) eqn:Ht.
  - eexists. split.
    + apply Hrun.
      unfold InjectionEngine.toastr, InjectionEngine.disable,
        InjectionEngine.saveSettings, InjectionEngine.originalSendMessage,
        InjectionEngine.clearTimeout.
      unfold_m. cbn. rewrite Ht. reflexivity.
    + cbn. rewrite Heff. rewrite <- !app_assoc. repeat split; done.
  - eexists. split.
    + apply Hrun.
      unfold InjectionEngine.toastr, InjectionEngine.disable,
        InjectionEngine.saveSettings, InjectionEngine.originalSendMessage,
        InjectionEngine.clearTimeout.
      unfold_m. cbn. rewrite Ht. reflexivity.
    + cbn. rewrite Heff. rewrite <- !app_assoc. repeat split; done.
Qed.

Lemma exhaustion_disables_witness :
  let w := demo_world three_paragraphs 3 (demo_settings None None false) in
  exists w' : World,
    InjectionEngine.sendTextareaMessage (utf16 "你好") w = (Returned tt, w') /\
    isEnabled (engine w) = true /\
    isEnabled (engine w') = false /\
    activeNovelId (engine w') = None /\
    InjectionEngine.timer_set (autoPilotTimer (engine w')) = false /\
    storedSettings w' = Some (settings (engine w')) /\
    Config.enabled (settings (engine w')) = false /\
    effects w'
    = effects w ++ [Toast warning (utf16 "小说已读完，已切换回正常模式");
                    Toast info (utf16 "小说注入器已禁用");
                    Deliver (utf16 "你好")] /\
    novels w' = novels w.
Proof.
  apply (exhaustion_disables
           (demo_world three_paragraphs 3 (demo_settings None None false))
           (demo_world three_paragraphs 3 (demo_settings None None false))
           (utf16 "你好")).
  - reflexivity.
  - reflexivity.
Defined.

(* ===================================================================== *)
(** ** Where the code departs from the specification                     *)
(* ===================================================================== *)

(** C5 (the code departs from the claim).  The first paragraph has 100
    words and does not end a sentence, the budget is 100, and the next
    paragraph exists with 4 words, below the threshold of 100.  The loop
    does [continue] for it, and then its overshoot test at the top of the
    next pass stops the walk: the chunk is the first paragraph alone. *)
Theorem short_paragraph_left_out :
  let settings := demo_settings (Some 100) None false in
  let store : gmap jsstring Novel :=
    {[ demo_id := demo_novel [open_paragraph; short_paragraph] 0 ]} in
  countWords (Some open_paragraph) = 100 /\
  isGoodBreakPoint (Some open_paragraph) = false /\
  countWords (Some short_paragraph) = 4 /\
  (fun chunk => (startParagraph chunk, endParagraph chunk, wordCount chunk))
    <$> TextProcessor.getNextChunk settings store demo_id 0
  = Some (0, 1, 100).
Proof. vm_compute. repeat split. Qed.

(** The same for every novel: once the count has reached the budget, the
    walk never takes a further paragraph that has a word in it. *)
Lemma reached_budget_never_absorbs
      (settings : Config.t) (novels : gmap jsstring Novel)
      (novelId : jsstring) (novel : Novel) (ps : list jsstring) (s : Z)
      (chunk : Chunk) (k : nat) :
  novels !! novelId = Some novel ->
  paragraphs novel = Some ps ->
  0 < target_of settings ->
  s < array_length ps ->
  TextProcessor.getNextChunk settings novels novelId s = Some chunk ->
  s + Z.of_nat (S k) <= endParagraph chunk ->
  target_of settings <= running ps 0 s (S k) ->
  1 <= countWords (at_index ps (s + Z.of_nat (S k))) ->
  endParagraph chunk = s + Z.of_nat (S k).
Proof.
  intros Hn Hp HB Hs Hchunk Hk Hreach Hnext.
  rewrite (getNextChunk_loaded _ _ _ _ _ _ Hn Hp) in Hchunk.
  destruct (next_chunk_spec ps (target_of settings) s HB Hs)
    as (n & Hn1 & Hin & Heq & Hacc & Hfin).
  rewrite Heq in Hchunk. injection Hchunk as <-. cbn in *.
  rewrite (budget_reached_stops ps (target_of settings) s n k); try done. lia.
Qed.

(** C1 (the code departs from the claim).  Three paragraphs, the default
    budget of 500: the first send injects paragraphs 0 to 2, and
    [updateProgress] clamps the new cursor 3 to 2; so the second send
    injects paragraph 2 again, and so does the third.  The cursor never
    equals the paragraph count 3 and the controller stays enabled. *)
Theorem last_paragraph_injected_again :
  let w0 := demo_world three_paragraphs 0 (demo_settings None None false) in
  let w3 := run w0 [Send []; Send []; Send []] in
  emitted_ranges (run w0 [Send []]) = [(0, 3)] /\
  cursor_of (run w0 [Send []]) = Some 2 /\
  emitted_ranges (run w0 [Send []; Send []]) = [(0, 3); (2, 3)] /\
  cursor_of (run w0 [Send []; Send []]) = Some 2 /\
  emitted_ranges w3 = [(0, 3); (2, 3); (2, 3)] /\
  cursor_of w3 = Some 2 /\
  length (delivered w3) = 3%nat /\
  isEnabled (engine w3) = true.
Proof. vm_compute. repeat split. Qed.

(** C3 (the code departs from the claim).  The marker appended by
    [formatChunkContent] is [[小说注入器 - 自动注入]]; [isNovelContent]
    looks for [[小说注入器]] or [[Novel Injector]].  A formatted chunk ends
    with the appended marker, is not recognised by the marker check, and
    would be intercepted again; in both display modes and with the default
    prefix. *)
Theorem formatted_chunk_not_recognised :
  forall collapse : bool,
    let w := demo_world three_paragraphs 0
               (demo_settings None (Some default_prefix) collapse) in
    exists chunk : Chunk,
      TextProcessor.getNextChunk (processorSettings (engine w)) (novels w) demo_id 0
      = Some chunk /\
      let formatted := InjectionEngine.formatChunkContent w chunk (utf16 "你好") in
      includes formatted InjectionEngine.injectedMarker = true /\
      InjectionEngine.isNovelContent formatted = false /\
      InjectionEngine.shouldInterceptMessage (engine w) formatted = true.
Proof.
  intros [|]; eexists; (split; [vm_compute; reflexivity|]);
    vm_compute; repeat split.
Qed.

(** C4 (the code departs from the claim).  [formatChunkContent] hands the
    original text to [createCollapsibleContent] in its collapse branch
    only; the direct-display branch of the same [if] appends the chunk
    content alone.  With collapse mode off the formatted output is the
    prefix, the chunk and the marker: the original text 你好 is not in
    it, and the output is the same as for an empty original text. *)
Lemma direct_mode_drops_original_text :
  let w := demo_world three_paragraphs 0
             (demo_settings None (Some default_prefix) false) in
  exists chunk : Chunk,
    TextProcessor.getNextChunk (processorSettings (engine w)) (novels w) demo_id 0
    = Some chunk /\
    includes (InjectionEngine.formatChunkContent w chunk (utf16 "你好"))
             (utf16 "你好") = false /\
    InjectionEngine.formatChunkContent w chunk (utf16 "你好")
    = InjectionEngine.formatChunkContent w chunk [].
Proof. eexists. split; [vm_compute; reflexivity|]. vm_compute. repeat split. Qed.

(* ===================================================================== *)
(** ** Autopilot: one timer at a time                                    *)
(* ===================================================================== *)

Lemma timers_ok_view w w' :
  timer_view w' = timer_view w -> timers_ok w -> timers_ok w'.
Proof.
  unfold timer_view, timers_ok. intros [= Ht Hn Ha]. rewrite Ht, Hn, Ha. done.
Qed.

Lemma frame_view w w1 : frame w w1 -> timer_view w1 = timer_view w.
Proof. intros ->. reflexivity. Qed.

(** When the engine holds no usable handle, nothing is pending. *)
Lemma timers_ok_unset w :
  timers_ok w ->
  InjectionEngine.timer_set (autoPilotTimer (engine w)) = false ->
  timers w = [].
Proof.
  intros (_ & Hpos & [Hnil | (t & _ & Hheld)]) Hunset; [done|].
  specialize (Hpos _ Hheld). rewrite Hheld in Hunset. cbn in Hunset.
  apply negb_false_iff, Z.eqb_eq in Hunset. lia.
Qed.

(** Clearing the handle the engine holds leaves nothing pending. *)
Lemma timers_ok_clear w :
  timers_ok w ->
  List.filter (fun t => negb (handle t =? default 0 (autoPilotTimer (engine w))))
              (timers w) = [].
Proof.
  intros (_ & _ & [-> | (t & -> & ->)]); [done|].
  cbn. by rewrite Z.eqb_refl.
Qed.

Lemma disable_returns w :
  InjectionEngine.disable w = (Returned tt, snd (InjectionEngine.disable w)).
Proof.
  unfold InjectionEngine.disable, InjectionEngine.saveSettings,
    InjectionEngine.toastr, InjectionEngine.clearTimeout. unfold_m. cbn.
  destruct (InjectionEngine.timer_set (autoPilotTimer (engine w))); reflexivity.
Qed.

Lemma disable_timers w :
  timers_ok w ->
  timers_ok (snd (InjectionEngine.disable w))
  /\ timers (snd (InjectionEngine.disable w)) = [].
Proof.
  intros Hok.
  pose proof (timers_ok_clear w Hok) as Hclear.
  unfold InjectionEngine.disable, InjectionEngine.saveSettings,
    InjectionEngine.toastr, InjectionEngine.clearTimeout. unfold_m. cbn.
  destruct (InjectionEngine.timer_set (autoPilotTimer (engine w))) eqn:Hset; cbn.
  - rewrite Hclear. split; [|done].
    destruct Hok as (Hnext & _ & _).
    split; [done|]. split; [done | by left].
  - pose proof (timers_ok_unset w Hok Hset) as Hnil.
    split; [|done]. destruct Hok as (Hnext & Hpos & _).
    split; [done|]. split; [done | by left].
Qed.

Lemma handleInterception_timers text w :
  timers_ok w -> timers_ok (snd (InjectionEngine.handleInterception text w)).
Proof.
  intros Hok. unfold InjectionEngine.handleInterception.
  unfold try_catch, mbind at 1, M_bind at 1.
  destruct (InjectionEngine.getNextChunk w) as [[[chunk|]|msg] w1] eqn:Hnext;
    apply getNextChunk_frame, frame_view in Hnext.
  - unfold InjectionEngine.sendNovelChunk, InjectionEngine.originalSendMessage.
    unfold_m. cbn. by apply (timers_ok_view w).
  - unfold InjectionEngine.toastr at 1. unfold perform, update.
    unfold mbind at 1, M_bind at 1.
    unfold mbind at 1, M_bind at 1.
    rewrite disable_returns.
    unfold InjectionEngine.originalSendMessage, perform, update. cbn.
    match goal with
    | |- timers_ok (with_effects (snd (InjectionEngine.disable ?w0)) _) =>
      apply (timers_ok_view (snd (InjectionEngine.disable w0))); [reflexivity|];
      apply disable_timers; by apply (timers_ok_view w)
    end.
  - unfold InjectionEngine.toastr, InjectionEngine.originalSendMessage.
    unfold_m. cbn. by apply (timers_ok_view w).
Qed.

Lemma onAIMessageReceived_idle w :
  autopilot_ready (engine w) = false ->
  InjectionEngine.onAIMessageReceived w = (Returned tt, w).
Proof.
  unfold autopilot_ready, InjectionEngine.onAIMessageReceived. unfold_m.
  intros Hidle.
  destruct (isAutoPilotEnabled (engine w)), (isEnabled (engine w)),
    (truthy (activeNovelId (engine w))); done.
Qed.

Lemma onAIMessageReceived_arms w :
  timers_ok w ->
  autopilot_ready (engine w) = true ->
  exists w' : World,
    InjectionEngine.onAIMessageReceived w = (Returned tt, w') /\
    timers w' = [mkTimer (nextHandle w)
                         (now w + Z.max 0 (autoPilotDelay (engine w)))] /\
    autoPilotTimer (engine w') = Some (nextHandle w) /\
    nextHandle w' = nextHandle w + 1 /\
    now w' = now w /\
    autoPilotDelay (engine w') = autoPilotDelay (engine w) /\
    autopilot_ready (engine w') = true.
Proof.
  intros Hok Hready.
  pose proof (timers_ok_clear w Hok) as Hclear.
  unfold autopilot_ready in *.
  apply andb_true_iff in Hready as [Hready Hnovel].
  apply andb_true_iff in Hready as [Hauto Hon].
  unfold InjectionEngine.onAIMessageReceived, InjectionEngine.clearTimeout,
    InjectionEngine.setTimeout. unfold_m.
  rewrite Hauto, Hon, Hnovel. cbn.
  destruct (InjectionEngine.timer_set (autoPilotTimer (engine w))) eqn:Hset; cbn.
  - rewrite Hclear. eexists. split; [reflexivity|]. cbn.
    rewrite Hauto, Hon, Hnovel. done.
  - rewrite (timers_ok_unset w Hok Hset). eexists. split; [reflexivity|]. cbn.
    rewrite Hauto, Hon, Hnovel. done.
Qed.

Lemma react_timers input w : timers_ok w -> timers_ok (step w input).
Proof.
  intros Hok. unfold step. destruct input as [text| |dt|h|novelId| |on delay|text];
    cbn [react].
  - unfold InjectionEngine.sendTextareaMessage. unfold mbind, M_bind, reads.
    destruct (InjectionEngine.shouldInterceptMessage (engine w) text).
    + by apply handleInterception_timers.
    + unfold InjectionEngine.originalSendMessage. unfold_m. cbn.
      by apply (timers_ok_view w).
  - destruct (autopilot_ready (engine w)) eqn:Hready.
    + destruct (onAIMessageReceived_arms w Hok Hready)
        as (w' & -> & Ht & Ha & Hn & _). cbn.
      destruct Hok as (Hnext & _ & _).
      split; [lia|]. split.
      * intros h. rewrite Ha. intros [= <-]. lia.
      * right. eexists. split; [exact Ht | by rewrite Ha].
    + by rewrite onAIMessageReceived_idle.
  - by apply (timers_ok_view w).
  - unfold fire. unfold mbind at 1, M_bind at 1, reads at 1.
    destruct (existsb _ (timers w)); [|done].
    unfold InjectionEngine.clearTimeout. unfold mbind, M_bind, update.
    set (w1 := with_timers w _ _).
    assert (Hok1 : timers_ok w1).
    { destruct Hok as (Hnext & Hpos & Hone). split; [done|]. split; [done|].
      subst w1. cbn. destruct Hone as [-> | (t & -> & Hheld)]; [by left|].
      cbn. destruct (negb (handle t =? h)); [right; by exists t | by left]. }
    clearbody w1.
    unfold InjectionEngine.triggerAutoPilotInjection.
    unfold mbind, M_bind, reads, mret, M_ret.
    destruct (negb (isAutoPilotEnabled (engine w1)) || negb (isEnabled (engine w1)));
      [done|].
    unfold try_catch, InjectionEngine.manualInject.
    unfold mbind, M_bind, reads.
    destruct (negb (isEnabled (engine w1)) || negb (truthy (activeNovelId (engine w1)))).
    + unfold InjectionEngine.toastr. unfold_m. cbn. by apply (timers_ok_view w1).
    + pose proof (handleInterception_timers [] w1 Hok1) as Hh.
      destruct (InjectionEngine.handleInterception [] w1) as [[[]|msg] w2]; done.
  - unfold InjectionEngine.enable, InjectionEngine.saveSettings,
      InjectionEngine.toastr. unfold_m. cbn. by apply (timers_ok_view w).
  - rewrite disable_returns. cbn. by apply disable_timers.
  - unfold InjectionEngine.setAutoPilot, InjectionEngine.saveSettings,
      InjectionEngine.toastr. unfold_m. cbn. by apply (timers_ok_view w).
  - unfold InjectionEngine.manualInject. unfold mbind, M_bind, reads.
    destruct (negb (isEnabled (engine w)) || negb (truthy (activeNovelId (engine w)))).
    + unfold InjectionEngine.toastr. unfold_m. cbn. by apply (timers_ok_view w).
    + by apply handleInterception_timers.
Qed.

Lemma run_timers inputs : forall w, timers_ok w -> timers_ok (run w inputs).
Proof.
  induction inputs as [|input inputs IH]; intros w Hok; [done|].
  apply IH. by apply react_timers.
Qed.

Lemma initial_timers novels server settings :
  timers_ok (initial novels server settings).
Proof. split; [done|]. split; [done | by left]. Qed.

(** C8. In every world the system reaches from its start, at most one
    autopilot timer is pending.  A turn-complete signal that finds
    autopilot on, the controller enabled and a novel active leaves exactly
    the timer it arms, due one delay after the signal; any other signal
    changes nothing.  Two such signals with no timer run between them
    leave exactly one timer, due one delay after the second signal, and
    the handle of the first is dead. *)
Theorem autopilot_debounce
        (novels : gmap jsstring Novel) (server : jsstring -> Outcome jsstring)
        (settings : Config.t) (inputs : list Input) :
  let w := run (initial novels server settings) inputs in
  let delay := Z.max 0 (autoPilotDelay (engine w)) in
  (length (timers w) <= 1)%nat /\
  (autopilot_ready (engine w) = false -> step w TurnComplete = w) /\
  (autopilot_ready (engine w) = true ->
     timers (step w TurnComplete) = [mkTimer (nextHandle w) (now w + delay)] /\
     forall dt : Z,
       let w2 := run w [TurnComplete; Elapse dt; TurnComplete] in
       timers w2 = [mkTimer (nextHandle w + 1) (now w + Z.max 0 dt + delay)] /\
       step w2 (Fire (nextHandle w)) = w2).
Proof.
  intros w delay.
  assert (Hok : timers_ok w) by apply run_timers, initial_timers.
  split.
  { destruct Hok as (_ & _ & [-> | (t & -> & _)]); cbn; lia. }
  split.
  { intros Hidle. unfold step. cbn [react].
    by rewrite onAIMessageReceived_idle. }
  intros Hready.
  destruct (onAIMessageReceived_arms w Hok Hready)
    as (w1 & Hrun1 & Ht1 & Ha1 & Hn1 & Hnow1 & Hd1 & Hready1).
  assert (Hstep1 : step w TurnComplete = w1).
  { unfold step. cbn [react]. by rewrite Hrun1. }
  split; [by rewrite Hstep1|].
  intros dt w2. subst w2. cbn [run foldl]. rewrite Hstep1.
  set (w1' := step w1 (Elapse dt)).
  assert (Hok1' : timers_ok w1').
  { apply react_timers. rewrite <- Hstep1. by apply react_timers. }
  assert (Hready1' : autopilot_ready (engine w1') = true) by done.
  destruct (onAIMessageReceived_arms w1' Hok1' Hready1')
    as (w2 & Hrun2 & Ht2 & Ha2 & Hn2 & Hnow2 & Hd2 & Hready2).
  assert (Hstep2 : step w1' TurnComplete = w2).
  { unfold step. cbn [react]. by rewrite Hrun2. }
  rewrite Hstep2. split.
  - rewrite Ht2. subst w1' delay. unfold step. cbn.
    rewrite Hn1, Hnow1, Hd1. done.
  - unfold step. cbn [react]. unfold fire.
    unfold mbind at 1, M_bind at 1, reads at 1. rewrite Ht2.
    subst w1'. unfold step. cbn. rewrite Hn1.
    destruct (nextHandle w + 1 =? nextHandle w) eqn:E;
      [apply Z.eqb_eq in E; lia | done].
Qed.

(* ===================================================================== *)
(** ** The cursor never reaches the paragraph count                      *)
(* ===================================================================== *)

Lemma updateProgress_short novelId p w r w1 :
  FileManager.updateProgress novelId p w = (r, w1) ->
  cursors_short (novels w) -> cursors_short (novels w1).
Proof.
  unfold FileManager.updateProgress, FileManager.getNovel,
    FileManager.saveNovelsData. unfold_m.
  destruct (novels w !! novelId) as [novel|] eqn:Hn; intros [= <- <-]; [|done].
  intros Hshort. cbn. intros id' novel'. rewrite lookup_insert.
  case_decide as Hid.
  - intros [= <-]. cbn. lia.
  - apply Hshort.
Qed.

Lemma reloadNovelContent_short novelId w r w1 :
  FileManager.reloadNovelContent novelId w = (r, w1) ->
  cursors_short (novels w) -> cursors_short (novels w1).
Proof.
  unfold FileManager.reloadNovelContent, FileManager.getNovel,
    FileManager.readFileContent. unfold_m.
  destruct (novels w !! novelId) as [novel|] eqn:Hn; [|by intros [= <- <-]].
  destruct (paragraphs novel); [by intros [= <- <-]|].
  destruct (server w (filename novel)); intros [= <- <-]; [|done].
  intros Hshort. cbn. intros id' novel'. rewrite lookup_insert.
  case_decide as Hid.
  - intros [= <-]. cbn. by apply (Hshort novelId).
  - apply Hshort.
Qed.

Lemma getNextChunk_short w r w1 :
  InjectionEngine.getNextChunk w = (r, w1) ->
  cursors_short (novels w) -> cursors_short (novels w1).
Proof.
  intros Hrun Hshort. revert Hrun.
  unfold InjectionEngine.getNextChunk, FileManager.getNovel.
  unfold mbind, M_bind, mret, M_ret, reads.
  destruct (activeNovelId (engine w)) as [[|c t]|];
    try (cbn; by intros [= <- <-]).
  destruct (novels w !! _) as [novel|]; [|cbn; by intros [= <- <-]].
  destruct (totalParagraphs novel <=? currentParagraph novel);
    [cbn; by intros [= <- <-]|].
  destruct (FileManager.reloadNovelContent (c :: t) w) as [[[]|msg] w2] eqn:Hr;
    pose proof (reloadNovelContent_short _ _ _ _ Hr Hshort) as Hshort2;
    [|cbn; by intros [= <- <-]].
  destruct (TextProcessor.getNextChunk _ _ _ _) as [chunk|];
    [|cbn; by intros [= <- <-]].
  destruct (FileManager.updateProgress (c :: t) (endParagraph chunk) w2)
    as [[[]|msg] w3] eqn:Hu; cbn; intros [= <- <-];
    exact (updateProgress_short _ _ _ _ _ Hu Hshort2).
Qed.

Lemma disable_novels w : novels (snd (InjectionEngine.disable w)) = novels w.
Proof.
  unfold InjectionEngine.disable, InjectionEngine.saveSettings,
    InjectionEngine.toastr, InjectionEngine.clearTimeout. unfold_m. cbn.
  destruct (InjectionEngine.timer_set (autoPilotTimer (engine w))); reflexivity.
Qed.

Lemma handleInterception_short text w :
  cursors_short (novels w) ->
  cursors_short (novels (snd (InjectionEngine.handleInterception text w))).
Proof.
  intros Hshort. unfold InjectionEngine.handleInterception.
  unfold try_catch, mbind at 1, M_bind at 1.
  destruct (InjectionEngine.getNextChunk w) as [[[chunk|]|msg] w1] eqn:Hnext;
    pose proof (getNextChunk_short _ _ _ Hnext Hshort) as Hshort1; try done.
  - unfold InjectionEngine.toastr at 1. unfold perform, update.
    unfold mbind at 1, M_bind at 1.
    unfold mbind at 1, M_bind at 1.
    rewrite disable_returns.
    unfold InjectionEngine.originalSendMessage, perform, update. cbn.
    by rewrite disable_novels.
Qed.

Lemma react_short input w :
  cursors_short (novels w) -> cursors_short (novels (step w input)).
Proof.
  intros Hshort. unfold step.
  destruct input as [text| |dt|h|novelId| |on delay|text]; cbn [react].
  - unfold InjectionEngine.sendTextareaMessage. unfold mbind, M_bind, reads.
    destruct (InjectionEngine.shouldInterceptMessage (engine w) text);
      [by apply handleInterception_short | done].
  - unfold InjectionEngine.onAIMessageReceived, InjectionEngine.clearTimeout,
      InjectionEngine.setTimeout. unfold_m.
    destruct (_ || _); [done|]. cbn.
    destruct (InjectionEngine.timer_set (autoPilotTimer (engine w))); done.
  - done.
  - unfold fire. unfold mbind at 1, M_bind at 1, reads at 1.
    destruct (existsb _ (timers w)); [|done].
    unfold InjectionEngine.clearTimeout. unfold mbind, M_bind, update.
    set (w1 := with_timers w _ _).
    assert (Hshort1 : cursors_short (novels w1)) by done.
    clearbody w1.
    unfold InjectionEngine.triggerAutoPilotInjection.
    unfold mbind, M_bind, reads, mret, M_ret.
    destruct (negb (isAutoPilotEnabled (engine w1)) || negb (isEnabled (engine w1)));
      [done|].
    unfold try_catch, InjectionEngine.manualInject.
    unfold mbind, M_bind, reads.
    destruct (negb (isEnabled (engine w1)) || negb (truthy (activeNovelId (engine w1))));
      [done|].
    pose proof (handleInterception_short [] w1 Hshort1) as Hh.
    destruct (InjectionEngine.handleInterception [] w1) as [[[]|msg] w2]; done.
  - done.
  - by rewrite disable_novels.
  - done.
  - unfold InjectionEngine.manualInject. unfold mbind, M_bind, reads.
    destruct (negb (isEnabled (engine w)) || negb (truthy (activeNovelId (engine w))));
      [done | by apply handleInterception_short].
Qed.

(** Whatever the host does, a novel with at least one paragraph never has
    its cursor at its paragraph count: the exhaustion test of
    [InjectionEngine.getNextChunk] stays false for it. *)
Lemma cursor_never_reaches_count inputs : forall w,
  cursors_short (novels w) -> cursors_short (novels (run w inputs)).
Proof.
  induction inputs as [|input inputs IH]; intros w Hshort; [done|].
  apply IH. by apply react_short.
Qed.

(** A novel as it is after upload satisfies the condition. *)
Lemma fresh_novel_short (novel : Novel) :
  currentParagraph novel = 0 ->
  cursors_short {[ novel_id novel := novel ]}.
Proof.
  intros Hzero id' novel' Hlook Htotal.
  apply lookup_singleton_Some in Hlook as [_ <-]. lia.
Qed.

(* ===================================================================== *)
(** ** Collapse mode keeps the original text                             *)
(* ===================================================================== *)

Lemma unit_eqb_refl c : unit_eqb c c = true.
Proof. apply N.eqb_refl. Qed.

Lemma starts_with_app p r : starts_with (p ++ r) p = true.
Proof.
  induction p as [|c p IH]; [by destruct r|].
  cbn [app starts_with]. rewrite unit_eqb_refl. exact IH.
Qed.

Lemma includes_unfold s p :
  includes s p
  = starts_with s p || match s with
                       | [] => false
                       | _ :: s' => includes s' p
                       end.
Proof. by destruct s. Qed.

Lemma includes_here p r : includes (p ++ r) p = true.
Proof. by rewrite includes_unfold, starts_with_app. Qed.

Lemma includes_skip a s p : includes s p = true -> includes (a ++ s) p = true.
Proof.
  intros H. induction a as [|c a IH]; [done|].
  cbn [app]. rewrite includes_unfold, IH. apply orb_true_r.
Qed.

Lemma includes_middle a p r : includes (a ++ p ++ r) p = true.
Proof. apply includes_skip, includes_here. Qed.

(** With collapse mode on, the formatted output holds the original text,
    whatever the chunk, the novel and the prefix template. *)
Lemma collapse_mode_keeps_original_text (w : World) (chunk : Chunk)
      (originalText : jsstring) :
  Config.collapseContent (settings (engine w)) = true ->
  includes (InjectionEngine.formatChunkContent w chunk originalText)
           originalText = true.
Proof.
  intros Hcollapse. unfold InjectionEngine.formatChunkContent.
  rewrite Hcollapse. cbv zeta.
  rewrite <- app_assoc. apply includes_skip.
  unfold InjectionEngine.createCollapsibleContent. cbv zeta.
  destruct originalText as [|c t]; [by destruct (_ ++ _)|].
  rewrite <- !app_assoc.
  repeat first [apply includes_here | apply includes_skip].
Qed.

(** The two branches of [formatChunkContent], for every world, chunk and
    original text: with collapse mode on, the formatted output contains
    the original text verbatim; with collapse mode off, the formatted
    output does not depend on the original text. *)
Theorem original_text_kept_in_collapse_mode
        (w : World) (chunk : Chunk) (originalText : jsstring) :
  (Config.collapseContent (settings (engine w)) = true ->
   includes (InjectionEngine.formatChunkContent w chunk originalText)
            originalText = true)
  /\
  (Config.collapseContent (settings (engine w)) = false ->
   InjectionEngine.formatChunkContent w chunk originalText
   = InjectionEngine.formatChunkContent w chunk []).
Proof.
  split.
  - apply collapse_mode_keeps_original_text.
  - intros Hdirect. unfold InjectionEngine.formatChunkContent.
    by rewrite Hdirect.
Qed.

(* ===================================================================== *)
(** ** The marker written and the marker looked for                      *)
(* ===================================================================== *)

(** Every formatted chunk ends with the marker that [formatChunkContent]
    appends. *)
Lemma formatted_ends_with_marker (w : World) (chunk : Chunk)
      (originalText : jsstring) :
  exists body : jsstring,
    InjectionEngine.formatChunkContent w chunk originalText
    = body ++ InjectionEngine.injectedMarker.
Proof. unfold InjectionEngine.formatChunkContent. by eexists. Qed.

(** That marker is not one [isNovelContent] recognises. *)
Lemma marker_not_recognised :
  InjectionEngine.isNovelContent InjectionEngine.injectedMarker = false.
Proof. vm_compute. reflexivity. Qed.

(* ===================================================================== *)
(** ** Trimming, word counts and parsed paragraphs                        *)
(* ===================================================================== *)

Lemma trim_start_head s c r : trim_start s = c :: r -> is_space c = false.
Proof.
  induction s as [|d s IH]; cbn; [done|].
  destruct (is_space d) eqn:E; [exact IH|]. by intros [= <- _].
Qed.

Lemma trim_start_fixed s :
  match s with
  | [] => True
  | c :: _ => is_space c = false
  end -> trim_start s = s.
Proof. destruct s as [|c r]; cbn; [done|]. by intros ->. Qed.

Lemma trim_start_suffix s : exists sp, s = sp ++ trim_start s.
Proof.
  induction s as [|c s [sp IH]]; [by exists []|]. cbn.
  destruct (is_space c).
  - exists (c :: sp). cbn. by rewrite <- IH.
  - by exists [].
Qed.

Lemma trim_start_idem s : trim_start (trim_start s) = trim_start s.
Proof.
  apply trim_start_fixed. destruct (trim_start s) as [|c r] eqn:E; [done|].
  by apply trim_start_head in E.
Qed.

Lemma trim_end_prefix u : exists tail, u = trim_end u ++ tail.
Proof.
  unfold trim_end. destruct (trim_start_suffix (rev u)) as [sp Hsp].
  exists (rev sp). rewrite <- rev_app_distr, <- Hsp. by rewrite rev_involutive.
Qed.

Lemma trim_head s c r : trim s = c :: r -> is_space c = false.
Proof.
  unfold trim. intros H.
  destruct (trim_end_prefix (trim_start s)) as [tail Htail].
  rewrite H in Htail. cbn in Htail. by apply trim_start_head in Htail.
Qed.

Lemma trim_idem s : trim (trim s) = trim s.
Proof.
  unfold trim at 1.
  assert (Hstart : trim_start (trim s) = trim s).
  { apply trim_start_fixed. destruct (trim s) as [|c r] eqn:E; [done|].
    by apply trim_head in E. }
  rewrite Hstart. unfold trim, trim_end.
  by rewrite rev_involutive, trim_start_idem.
Qed.

(** A string without white space is its own trim. *)
Lemma trim_no_space s :
  forallb (fun c => negb (is_space c)) s = true -> trim s = s.
Proof.
  intros Hall. unfold trim.
  assert (Hs : trim_start s = s).
  { apply trim_start_fixed. destruct s as [|c r]; [done|].
    cbn in Hall. apply andb_true_iff in Hall as [Hc _].
    by apply negb_true_iff in Hc. }
  rewrite Hs. unfold trim_end.
  assert (Hr : trim_start (rev s) = rev s).
  { apply trim_start_fixed. destruct (rev s) as [|c r] eqn:E; [done|].
    assert (Hin : In c s) by (apply in_rev; rewrite E; by left).
    rewrite forallb_forall in Hall. specialize (Hall _ Hin).
    by apply negb_true_iff in Hall. }
  by rewrite Hr, rev_involutive.
Qed.

(** The pieces of [split_spaces] that are not blank: there is one as soon
    as the text, or the piece under way, has a character that is not white
    space. *)
Lemma split_spaces_has_word s : forall cur in_run,
  forallb (fun c => negb (is_space c)) cur = true ->
  (in_run = true -> cur = []) ->
  cur <> [] \/ existsb (fun c => negb (is_space c)) s = true ->
  (1 <= length (List.filter (fun word => (0 <? js_length (trim word))%Z)
                            (split_spaces cur in_run s)))%nat.
Proof.
  induction s as [|c s IH]; intros cur in_run Hcur Hrun Hsome.
  - destruct Hsome as [Hne|]; [|done]. cbn [split_spaces List.filter].
    assert (Hrev : forallb (fun c => negb (is_space c)) (rev cur) = true).
    { rewrite forallb_forall in *. intros x Hx. apply Hcur. by apply in_rev. }
    rewrite (trim_no_space _ Hrev).
    destruct (0 <? js_length (rev cur)) eqn:E; [cbn; lia|].
    apply Z.ltb_ge in E. unfold js_length in E. rewrite length_rev in E.
    destruct cur; [done | cbn in E; lia].
  - cbn [split_spaces]. destruct (is_space c) eqn:Hc.
    + assert (Hrest : cur = [] ->
                existsb (fun c => negb (is_space c)) s = true).
      { intros ->. destruct Hsome as [|Hsome]; [done|].
        cbn in Hsome. by rewrite Hc in Hsome. }
      destruct in_run.
      * apply IH; [done | done | right; by apply Hrest, Hrun].
      * cbn [List.filter].
        destruct cur as [|d cur'].
        -- destruct (0 <? js_length (trim (rev []))); cbn [length];
             [|]; (etransitivity; [apply (IH [] true); [done|done|right; by apply Hrest]|lia]).
        -- assert (Hrev : forallb (fun c => negb (is_space c)) (rev (d :: cur')) = true).
           { rewrite forallb_forall in *. intros x Hx. apply Hcur. by apply in_rev. }
           rewrite (trim_no_space _ Hrev).
           destruct (0 <? js_length (rev (d :: cur'))) eqn:E; [cbn; lia|].
           apply Z.ltb_ge in E. unfold js_length in E. rewrite length_rev in E.
           cbn in E. lia.
    + apply IH; [|done|by left].
      cbn. by rewrite Hc, Hcur.
Qed.

Lemma countWords_zero_iff (text : jsstring) :
  countWords (Some text) = 0 <-> trim text = [].
Proof.
  unfold countWords. split.
  - destruct (trim text) as [|c r] eqn:Htrim; [done|]. intros Hzero. exfalso.
    pose proof (trim_head _ _ _ Htrim) as Hc.
    destruct (js_length (c :: r) =? 0) eqn:E;
      [apply Z.eqb_eq in E; unfold js_length in E; cbn in E; lia|].
    unfold array_length in Hzero.
    destruct (is_cjk c) eqn:Hcjk.
    + cbn [List.filter] in Hzero. rewrite Hcjk in Hzero. cbn [length] in Hzero. lia.
    + pose proof (split_spaces_has_word
                    (map (fun c => if is_cjk c then 32%N else c) (c :: r))
                    [] false eq_refl ltac:(done)) as Hword.
      cbn [map existsb] in Hword. rewrite Hcjk, Hc in Hword.
      specialize (Hword ltac:(by right)).
      cbn [map] in Hzero. rewrite Hcjk in Hzero. lia.
  - intros ->. done.
Qed.

Lemma countWords_pos (text : jsstring) :
  trim text <> [] -> 1 <= countWords (Some text).
Proof.
  intros Hne. pose proof (countWords_nonneg (Some text)).
  destruct (decide (countWords (Some text) = 0)) as [Hz|]; [|lia].
  by apply countWords_zero_iff in Hz.
Qed.

(** X1. [countWords] is 0 exactly on blank text: a text with a character
    that is not white space counts at least one word. *)
Theorem countWords_zero_iff_blank (text : jsstring) :
  countWords (Some text) = 0 <-> trim text = [].
Proof. apply countWords_zero_iff. Qed.

(** X2. Every paragraph [parseParagraphs] returns is non-empty, has no
    white space at either end, and counts at least one word. *)
Theorem parseParagraphs_paragraphs (content p : jsstring) :
  In p (FileManager.parseParagraphs content) ->
  p <> [] /\ trim p = p /\ 1 <= countWords (Some p).
Proof.
  unfold FileManager.parseParagraphs. destruct content as [|c0 r0]; [done|].
  intros Hin. apply filter_In in Hin as [Hin Hlen].
  apply in_map_iff in Hin as (q & <- & _).
  apply Z.ltb_lt in Hlen.
  assert (Hne : trim q <> []).
  { intros E. rewrite E in Hlen. unfold js_length in Hlen. simpl in Hlen. lia. }
  split; [done|]. split; [apply trim_idem|].
  apply countWords_pos. by rewrite trim_idem.
Qed.

Lemma parseParagraphs_paragraphs_witness :
  utf16 "他走进了房间。" <> [] /\
  trim (utf16 "他走进了房间。") = utf16 "他走进了房间。" /\
  1 <= countWords (Some (utf16 "他走进了房间。")).
Proof.
  apply (parseParagraphs_paragraphs
           (utf16 "第一章" ++ LF ++ LF ++ utf16 "  他走进了房间。 " ++ LF)
           (utf16 "他走进了房间。")).
  vm_compute. right. left. reflexivity.
Defined.

(* ===================================================================== *)
(** ** Where a chunk ends, and how large it is                           *)
(* ===================================================================== *)

Lemma words_snoc ps : forall (m : nat) (i : Z),
  words (slice ps i (S m))
  = words (slice ps i m) + countWords (at_index ps (i + Z.of_nat m)).
Proof.
  induction m as [|m IH]; intros i.
  - cbn [slice words]. replace (i + Z.of_nat 0) with i by lia. lia.
  - change (slice ps i (S (S m)))
      with (at_index ps i :: slice ps (i + 1) (S m)).
    cbn [words]. rewrite IH. cbn [slice words].
    replace (i + 1 + Z.of_nat m) with (i + Z.of_nat (S m)) by lia. lia.
Qed.

(** The loop leaves at the end of the array, or with the budget reached,
    or because the paragraph it looks at would push a chunk with content
    over the budget. *)
Lemma collect_stop ps B fuel : forall i w,
  walkEnd w = i ->
  array_length ps - i <= Z.of_nat fuel ->
  let r := collect fuel ps B i w in
  array_length ps <= walkEnd r
  \/ B <= totalWordCount r
  \/ (0 < totalWordCount r
      /\ B < totalWordCount r + countWords (at_index ps (walkEnd r))).
Proof.
  induction fuel as [|fuel IH]; intros i w Hend Hfuel; cbn [collect].
  - left. lia.
  - destruct (i <? array_length ps) eqn:Hguard;
      [|apply Z.ltb_ge in Hguard; left; lia].
    destruct ((0 <? totalWordCount w)
              && (B <? totalWordCount w + countWords (at_index ps i))) eqn:Hover.
    { apply andb_true_iff in Hover as [Hpos Hbig].
      apply Z.ltb_lt in Hpos, Hbig. right. right. rewrite Hend. done. }
    set (w' := mkWalk _ _ _).
    assert (Hgo : let r := collect fuel ps B (i + 1) w' in
              array_length ps <= walkEnd r
              \/ B <= totalWordCount r
              \/ (0 < totalWordCount r
                  /\ B < totalWordCount r + countWords (at_index ps (walkEnd r))))
      by (apply IH; [done | lia]).
    destruct (B <=? totalWordCount w') eqn:Hreach; [|exact Hgo].
    apply Z.leb_le in Hreach.
    destruct (isGoodBreakPoint (at_index ps i)); [right; left; done|].
    destruct ((i + 1 <? array_length ps)
              && (countWords (at_index ps (i + 1)) <? 100));
      [exact Hgo | right; left; done].
Qed.

(** X3. A chunk is never cut short: on a loaded novel, for a start index
    inside the array, the chunk ends at the end of the novel, or its word
    count has reached the budget, or the next paragraph would push it
    over the budget. *)
Theorem chunk_ends_for_a_reason
        (settings : Config.t) (novels : gmap jsstring Novel)
        (novelId : jsstring) (novel : Novel) (ps : list jsstring) (s : Z)
        (chunk : Chunk) :
  novels !! novelId = Some novel ->
  paragraphs novel = Some ps ->
  s < array_length ps ->
  TextProcessor.getNextChunk settings novels novelId s = Some chunk ->
  endParagraph chunk = array_length ps
  \/ target_of settings <= wordCount chunk
  \/ target_of settings
     < wordCount chunk + countWords (at_index ps (endParagraph chunk)).
Proof.
  intros Hn Hp Hs Hchunk.
  rewrite (getNextChunk_loaded _ _ _ _ _ _ Hn Hp) in Hchunk.
  unfold next_chunk in Hchunk.
  destruct (array_length ps <=? s) eqn:E; [done|].
  pose proof (collect_stop ps (target_of settings)
                (Z.to_nat (array_length ps - s)) s (mkWalk [] 0 s)
                eq_refl ltac:(lia)) as Hstop.
  cbv zeta in Hstop.
  pose proof (collect_spec ps (target_of settings)
                (Z.to_nat (array_length ps - s)) s (mkWalk [] 0 s)) as Hspec.
  set (r := collect _ _ _ _ _) in *.
  destruct (array_length (collectedParagraphs r) =? 0); [done|].
  injection Hchunk as <-. cbn [endParagraph wordCount].
  destruct Hstop as [Hend | [Hreach | [_ Hover]]]; [|by right; left|by right; right].
  left. apply Z.le_antisymm; [|done].
  destruct (decide (0 < target_of settings)) as [HB|HB].
  - destruct (Hspec HB eq_refl) as (n & _ & Hin & Heq & _).
    subst r. rewrite Heq in *. cbn in *. destruct Hin as [->|]; lia.
  - clear Hspec. subst r.
    assert (Hbound : forall fuel i (w : Walk), walkEnd w <= array_length ps ->
              i < array_length ps \/ walkEnd w = i ->
              walkEnd (collect fuel ps (target_of settings) i w) <= array_length ps).
    { induction fuel as [|fuel IH]; intros i w Hw Hi; cbn [collect]; [done|].
      destruct (i <? array_length ps) eqn:Hg; [|done].
      apply Z.ltb_lt in Hg.
      destruct (_ && _); [done|].
      repeat match goal with
             | |- context [if ?b then _ else _] => destruct b eqn:?
             end; cbn [walkEnd]; try lia;
        apply IH; cbn [walkEnd]; try lia;
        match goal with
        | H : (_ && _) = true |- _ =>
          apply andb_true_iff in H as [H _]; apply Z.ltb_lt in H; left; lia
        | _ => right; done
        end. }
    apply Hbound; cbn; lia.
Qed.

Lemma chunk_ends_for_a_reason_witness :
  let settings := demo_settings (Some 12) None false in
  let store : gmap jsstring Novel :=
    {[ demo_id := demo_novel three_paragraphs 0 ]} in
  exists chunk : Chunk,
    TextProcessor.getNextChunk settings store demo_id 0 = Some chunk /\
    (endParagraph chunk = array_length three_paragraphs
     \/ target_of settings <= wordCount chunk
     \/ target_of settings
        < wordCount chunk
          + countWords (at_index three_paragraphs (endParagraph chunk))).
Proof.
  eexists. split; [vm_compute; reflexivity|].
  apply (chunk_ends_for_a_reason (demo_settings (Some 12) None false)
           {[ demo_id := demo_novel three_paragraphs 0 ]} demo_id
           (demo_novel three_paragraphs 0) three_paragraphs 0).
  - reflexivity.
  - reflexivity.
  - reflexivity.
  - vm_compute. reflexivity.
Defined.

(** X4. A chunk goes over the budget only when it is a single paragraph:
    on a loaded novel whose paragraph at the start index has a word in it,
    for a positive budget, the word count of the chunk is within the
    budget or the chunk is that one paragraph. *)
Theorem chunk_within_budget
        (settings : Config.t) (novels : gmap jsstring Novel)
        (novelId : jsstring) (novel : Novel) (ps : list jsstring) (s : Z)
        (chunk : Chunk) :
  novels !! novelId = Some novel ->
  paragraphs novel = Some ps ->
  0 < target_of settings ->
  s < array_length ps ->
  1 <= countWords (at_index ps s) ->
  TextProcessor.getNextChunk settings novels novelId s = Some chunk ->
  wordCount chunk <= target_of settings
  \/ (paragraphCount chunk = 1 /\ endParagraph chunk = s + 1).
Proof.
  intros Hn Hp HB Hs Hfirst Hchunk.
  rewrite (getNextChunk_loaded _ _ _ _ _ _ Hn Hp) in Hchunk.
  destruct (next_chunk_spec ps (target_of settings) s HB Hs)
    as (n & Hn1 & Hin & Heq & Hacc & _).
  rewrite Heq in Hchunk. injection Hchunk as <-.
  cbn [wordCount paragraphCount endParagraph].
  destruct n as [|[|k]]; [lia | right; split; lia | left].
  rewrite words_snoc.
  pose proof (Hacc (S k) ltac:(lia)) as Hlast. unfold running in Hlast.
  apply Hlast. cbn [slice words].
  pose proof (words_nonneg ps (s + 1) k). lia.
Qed.

Lemma chunk_within_budget_witness :
  let settings := demo_settings (Some 12) None false in
  let store : gmap jsstring Novel :=
    {[ demo_id := demo_novel three_paragraphs 0 ]} in
  exists chunk : Chunk,
    TextProcessor.getNextChunk settings store demo_id 0 = Some chunk /\
    (wordCount chunk <= target_of settings
     \/ (paragraphCount chunk = 1 /\ endParagraph chunk = 0 + 1)).
Proof.
  eexists. split; [vm_compute; reflexivity|].
  apply (chunk_within_budget (demo_settings (Some 12) None false)
           {[ demo_id := demo_novel three_paragraphs 0 ]} demo_id
           (demo_novel three_paragraphs 0) three_paragraphs 0).
  - reflexivity.
  - reflexivity.
  - reflexivity.
  - reflexivity.
  - vm_compute. discriminate.
  - vm_compute. reflexivity.
Defined.

(** X5. The content of a chunk is what [getParagraphs] returns for its
    range, joined by blank lines: on a loaded novel, for a positive budget
    and a start index inside the array. *)
Theorem chunk_content_is_getParagraphs
        (settings : Config.t) (novels : gmap jsstring Novel)
        (novelId : jsstring) (novel : Novel) (ps : list jsstring) (s : Z)
        (chunk : Chunk) :
  novels !! novelId = Some novel ->
  paragraphs novel = Some ps ->
  0 < target_of settings ->
  0 <= s < array_length ps ->
  TextProcessor.getNextChunk settings novels novelId s = Some chunk ->
  content chunk
  = join (LF ++ LF)
         (Some <$> FileManagerOps.getParagraphs novels novelId
                     (startParagraph chunk) (endParagraph chunk))
  /\ paragraphCount chunk
     = array_length (FileManagerOps.getParagraphs novels novelId
                       (startParagraph chunk) (endParagraph chunk)).
Proof.
  intros Hn Hp HB [Hs0 Hs] Hchunk.
  rewrite (getNextChunk_loaded _ _ _ _ _ _ Hn Hp) in Hchunk.
  destruct (next_chunk_spec ps (target_of settings) s HB Hs)
    as (n & Hn1 & Hin & Heq & _).
  rewrite Heq in Hchunk. injection Hchunk as <-.
  cbn [content startParagraph endParagraph paragraphCount].
  unfold FileManagerOps.getParagraphs. rewrite Hn, Hp.
  unfold FileManagerOps.js_slice.
  destruct (s <? 0) eqn:E1; [apply Z.ltb_lt in E1; lia|].
  destruct (s + Z.of_nat n <? 0) eqn:E2; [apply Z.ltb_lt in E2; lia|].
  rewrite !Z.min_l by lia.
  replace (Z.to_nat (s + Z.of_nat n - s)) with n by lia.
  rewrite slice_in_range by lia. split; [done|].
  unfold array_length in *. rewrite length_take, length_drop. lia.
Qed.

Lemma chunk_content_is_getParagraphs_witness :
  let settings := demo_settings (Some 12) None false in
  let store : gmap jsstring Novel :=
    {[ demo_id := demo_novel three_paragraphs 0 ]} in
  exists chunk : Chunk,
    TextProcessor.getNextChunk settings store demo_id 0 = Some chunk /\
    content chunk
    = join (LF ++ LF)
           (Some <$> FileManagerOps.getParagraphs store demo_id
                       (startParagraph chunk) (endParagraph chunk))
    /\ paragraphCount chunk
       = array_length (FileManagerOps.getParagraphs store demo_id
                         (startParagraph chunk) (endParagraph chunk)).
Proof.
  eexists. split; [vm_compute; reflexivity|].
  apply (chunk_content_is_getParagraphs (demo_settings (Some 12) None false)
           {[ demo_id := demo_novel three_paragraphs 0 ]} demo_id
           (demo_novel three_paragraphs 0) three_paragraphs 0).
  - reflexivity.
  - reflexivity.
  - reflexivity.
  - split; [lia | reflexivity].
  - vm_compute. reflexivity.
Defined.

(** The end of a walk that starts empty inside the array is past its
    start, for any budget. *)
Lemma collect_advances ps B fuel i :
  i < array_length ps ->
  i < walkEnd (collect (S fuel) ps B i (mkWalk [] 0 i)).
Proof.
  intros Hi.
  assert (Hmono : forall f j (w : Walk),
            walkEnd w <= j ->
            walkEnd w <= walkEnd (collect f ps B j w)).
  { induction f as [|f IH]; intros j w Hw; cbn [collect]; [lia|].
    destruct (j <? array_length ps); [|lia].
    destruct (_ && _); [lia|].
    repeat match goal with
           | |- context [if ?b then _ else _] => destruct b
           end; cbn [walkEnd]; try lia;
      (etransitivity; [|apply IH; cbn [walkEnd]; lia]); cbn [walkEnd]; lia. }
  cbn [collect totalWordCount collectedParagraphs].
  destruct (i <? array_length ps) eqn:Hg; [|apply Z.ltb_ge in Hg; lia].
  cbn [Z.ltb Z.compare andb app].
  repeat match goal with
         | |- context [if ?b then _ else _] => destruct b
         end; cbn [walkEnd]; try lia;
    (eapply Z.lt_le_trans; [|apply Hmono; cbn [walkEnd]; lia]); cbn [walkEnd]; lia.
Qed.

(** A chunk ends past its start, for any budget. *)
Lemma next_chunk_advances ps B s chunk :
  s < array_length ps ->
  next_chunk ps B s = Some chunk ->
  s < endParagraph chunk.
Proof.
  intros Hs. unfold next_chunk.
  destruct (array_length ps <=? s); [done|].
  destruct (Z.to_nat (array_length ps - s)) as [|fuel] eqn:Hfuel; [lia|].
  pose proof (collect_advances ps B fuel s Hs) as Hadv.
  destruct (array_length _ =? 0); [done|].
  intros [= <-]. exact Hadv.
Qed.

(* ===================================================================== *)
(** ** The novel store: unknown ids, frames, persistence                 *)
(* ===================================================================== *)

(** X6. On an id that is not in the map, [updateProgress], [resetProgress],
    [reloadNovelContent] and [deleteNovel] throw the same error and leave
    the world as it is; [getParagraphs] returns the empty array. *)
Theorem unknown_novel_is_an_error
        (w : World) (novelId : jsstring) (p a b : Z) (response : Outcome bool) :
  novels w !! novelId = None ->
  FileManager.updateProgress novelId p w = (Thrown (utf16 "小说不存在"), w) /\
  FileManager.resetProgress novelId w = (Thrown (utf16 "小说不存在"), w) /\
  FileManager.reloadNovelContent novelId w = (Thrown (utf16 "小说不存在"), w) /\
  FileManagerOps.deleteNovel response novelId w
  = (Thrown (utf16 "小说不存在"), w) /\
  FileManagerOps.getParagraphs (novels w) novelId a b = [].
Proof.
  intros Hnone.
  unfold FileManager.resetProgress, FileManager.updateProgress,
    FileManager.reloadNovelContent, FileManagerOps.deleteNovel,
    FileManagerOps.getParagraphs, FileManager.getNovel.
  unfold_m. rewrite !Hnone. done.
Qed.

Lemma unknown_novel_is_an_error_witness :
  let w := demo_world three_paragraphs 0 Config.empty in
  FileManager.updateProgress (utf16 "nobody") 1 w
  = (Thrown (utf16 "小说不存在"), w) /\
  FileManager.resetProgress (utf16 "nobody") w
  = (Thrown (utf16 "小说不存在"), w) /\
  FileManager.reloadNovelContent (utf16 "nobody") w
  = (Thrown (utf16 "小说不存在"), w) /\
  FileManagerOps.deleteNovel (Returned true) (utf16 "nobody") w
  = (Thrown (utf16 "小说不存在"), w) /\
  FileManagerOps.getParagraphs (novels w) (utf16 "nobody") 0 2 = [].
Proof.
  apply (unknown_novel_is_an_error
           (demo_world three_paragraphs 0 Config.empty) (utf16 "nobody")
           1 0 2 (Returned true)).
  reflexivity.
Defined.






(** X9. [reloadNovelContent] asks the server only for a novel whose
    paragraphs are not in memory.  Loaded paragraphs stay as they are and
    nothing changes; a failed request throws the error of the request and
    changes nothing; a text from the server is parsed into the paragraphs
    of that novel in the map, whose other fields, the cursor and the
    paragraph count among them, stay as they were, as do the other novels,
    the engine, the timers and what was delivered.  (Nothing is said of
    the stored record of the novel: it can be the object the map holds.) *)
Theorem reloadNovelContent_is_lazy
        (w : World) (novelId : jsstring) (novel : Novel) :
  novels w !! novelId = Some novel ->
  match paragraphs novel, server w (filename novel) with
  | Some _, _ => FileManager.reloadNovelContent novelId w = (Returned tt, w)
  | None, Thrown message =>
    FileManager.reloadNovelContent novelId w = (Thrown message, w)
  | None, Returned text =>
    exists w' : World,
      FileManager.reloadNovelContent novelId w = (Returned tt, w') /\
      novels w' !! novelId
      = Some (with_paragraphs novel (Some (FileManager.parseParagraphs text))) /\
      (forall other : jsstring,
         other <> novelId -> novels w' !! other = novels w !! other) /\
      engine w' = engine w /\
      timers w' = timers w /\
      effects w' = effects w /\
      storedSettings w' = storedSettings w
  end.
Proof.
  intros Hn. unfold FileManager.reloadNovelContent, FileManager.getNovel,
    FileManager.readFileContent. unfold_m. rewrite Hn.
  destruct (paragraphs novel); [done|].
  destruct (server w (filename novel)) as [text|message]; [|done].
  eexists. split; [reflexivity|]. cbn.
  split; [apply lookup_insert_eq|].
  split; [intros other Hne; by apply lookup_insert_ne|].
  done.
Qed.

Lemma reloadNovelContent_is_lazy_witness :
  let w := initial {[ demo_id := unloaded_novel ]} two_paragraph_server
                   Config.empty in
  exists w' : World,
    FileManager.reloadNovelContent demo_id w = (Returned tt, w') /\
    novels w' !! demo_id
    = Some (with_paragraphs unloaded_novel
              (Some (FileManager.parseParagraphs two_paragraph_text))) /\
    (forall other : jsstring,
       other <> demo_id -> novels w' !! other = novels w !! other) /\
    engine w' = engine w /\
    timers w' = timers w /\
    effects w' = effects w /\
    storedSettings w' = storedSettings w.
Proof.
  exact (reloadNovelContent_is_lazy
           (initial {[ demo_id := unloaded_novel ]} two_paragraph_server
                    Config.empty)
           demo_id unloaded_novel eq_refl).
Defined.



Lemma extractTitle_no_dot (s : jsstring) :
  forallb (fun d => negb (FileManagerOps.is_slash_or_dot d)) s = true ->
  FileManagerOps.extractTitle s = s.
Proof.
  induction s as [|c r IH]; [done|]. cbn [forallb FileManagerOps.extractTitle].
  intros Hall. apply andb_true_iff in Hall as [Hc Hr].
  unfold FileManagerOps.is_slash_or_dot in Hc.
  apply negb_true_iff, orb_false_iff in Hc as [_ Hdot].
  rewrite Hdot. cbn. by rewrite IH.
Qed.

(** X11. [extractTitle] takes the last extension off a file name: a name
    that ends in a dot and an extension without dot or slash gives the
    part before that dot, whatever that part is; a name without dot and
    slash is its own title. *)
Theorem extractTitle_drops_extension (base ext : jsstring) :
  ext <> [] ->
  forallb (fun d => negb (FileManagerOps.is_slash_or_dot d)) ext = true ->
  FileManagerOps.extractTitle (base ++ utf16 "." ++ ext) = base
  /\ FileManagerOps.extractTitle ext = ext.
Proof.
  intros Hne Hext. split; [|by apply extractTitle_no_dot].
  induction base as [|c base IH].
  - change (utf16 ".") with [46%N]. cbn [app FileManagerOps.extractTitle].
    rewrite Hext. unfold unit_eqb. cbn.
    destruct ext; [done|]. done.
  - cbn [app FileManagerOps.extractTitle]. rewrite IH.
    destruct (forallb (fun d => negb (FileManagerOps.is_slash_or_dot d))
                      (base ++ utf16 "." ++ ext)) eqn:E.
    + rewrite forallb_app in E. apply andb_true_iff in E as [_ E].
      change (utf16 ".") with [46%N] in E. cbn in E. done.
    + by rewrite andb_false_r.
Qed.

Lemma extractTitle_drops_extension_witness :
  FileManagerOps.extractTitle (utf16 "三体.第一部" ++ utf16 "." ++ utf16 "txt")
  = utf16 "三体.第一部"
  /\ FileManagerOps.extractTitle (utf16 "txt") = utf16 "txt".
Proof.
  apply (extractTitle_drops_extension (utf16 "三体.第一部") (utf16 "txt")).
  - discriminate.
  - reflexivity.
Defined.

(** What [deleteNovel] leaves when the server answers. *)
Lemma deleteNovel_removes_aux
      (w : World) (novelId : jsstring) (novel : Novel) (ok : bool) :
  novels w !! novelId = Some novel ->
  exists w' : World,
    FileManagerOps.deleteNovel (Returned ok) novelId w = (Returned true, w') /\
    novels w' = delete novelId (novels w) /\
    engine w' = engine w /\
    effects w' = effects w.
Proof.
  intros Hn. unfold FileManagerOps.deleteNovel, FileManager.getNovel,
    FileManager.saveNovelsData. unfold_m. rewrite Hn.
  eexists. split; [reflexivity|]. done.
Qed.

(* ===================================================================== *)
(** ** What survives in the storage                                      *)
(* ===================================================================== *)

(** [getStorage] hands out the stored object itself and [init] puts the
    stored records into the map, so a record of the storage can be the
    very object the map holds, paragraphs included once they are fetched.
    The lemmas below compare the storage and the map on the metadata
    only, which holds whether or not a record is shared. *)

Lemma metadata_idem novel : metadata (metadata novel) = metadata novel.
Proof. done. Qed.













(* ===================================================================== *)
(** ** The act-path, case by case                                        *)
(* ===================================================================== *)

Lemma delivered_app (w : World) (es : list Effect) :
  delivered (with_effects w (effects w ++ es))
  = delivered w ++ omap (fun e => match e with
                                  | Deliver text => Some text
                                  | _ => None
                                  end) es.
Proof. unfold delivered. cbn. apply omap_app. Qed.

Lemma disable_effects w :
  effects (snd (InjectionEngine.disable w))
  = effects w ++ [Toast info (utf16 "小说注入器已禁用")].
Proof.
  unfold InjectionEngine.disable, InjectionEngine.saveSettings,
    InjectionEngine.toastr, InjectionEngine.clearTimeout. unfold_m. cbn.
  destruct (InjectionEngine.timer_set (autoPilotTimer (engine w))); done.
Qed.

(** The three ways [handleInterception] ends, by what
    [InjectionEngine.getNextChunk] gave. *)
Lemma handleInterception_cases (text : jsstring) (w : World) :
  match InjectionEngine.getNextChunk w with
  | (Returned (Some chunk), w1) =>
    InjectionEngine.handleInterception text w
    = (Returned tt,
       with_effects w1
         (effects w ++ [Deliver (InjectionEngine.formatChunkContent w1 chunk text);
                        Emitted (utf16 "chunkInjected")
                                (activeNovelId (engine w)) chunk]))
  | (Returned None, w1) =>
    exists w' : World,
      InjectionEngine.handleInterception text w = (Returned tt, w') /\
      w' = with_effects
             (snd (InjectionEngine.disable
                     (with_effects w1
                        (effects w ++ [Toast warning (utf16 "小说已读完，已切换回正常模式")]))))
             (effects w ++ [Toast warning (utf16 "小说已读完，已切换回正常模式");
                            Toast info (utf16 "小说注入器已禁用");
                            Deliver text])
  | (Thrown message, w1) =>
    InjectionEngine.handleInterception text w
    = (Returned tt,
       with_effects w1
         (effects w ++ [Toast error (utf16 "注入失败: " ++ message);
                        Deliver text]))
  end.
Proof.
  destruct (InjectionEngine.getNextChunk w) as [[[chunk|]|message] w1] eqn:Hnext;
    pose proof (getNextChunk_frame _ _ _ Hnext) as Hframe;
    unfold InjectionEngine.handleInterception;
    unfold try_catch, mbind at 1, M_bind at 1; rewrite Hnext.
  - unfold InjectionEngine.sendNovelChunk, InjectionEngine.originalSendMessage.
    unfold_m. cbn. rewrite Hframe. cbn. by rewrite <- app_assoc.
  - eexists. split; [|reflexivity].
    unfold InjectionEngine.toastr at 1. unfold perform, update.
    unfold mbind at 1, M_bind at 1.
    unfold mbind at 1, M_bind at 1.
    rewrite disable_returns.
    unfold InjectionEngine.originalSendMessage, perform, update.
    rewrite disable_effects. cbn [effects with_effects].
    assert (Heff : effects w1 = effects w) by (by rewrite Hframe).
    rewrite Heff, <- !app_assoc. reflexivity.
  - unfold InjectionEngine.toastr, InjectionEngine.originalSendMessage.
    unfold_m. cbn. rewrite Hframe. cbn. by rewrite <- app_assoc.
Qed.

(** X14. The act-path never throws and hands exactly one text to the
    dispatch boundary, whatever the world and the text: the original text,
    or the chunk that was produced, formatted. *)
Theorem act_path_delivers_once (w : World) (text : jsstring) :
  exists (w' : World) (sent : jsstring),
    InjectionEngine.sendTextareaMessage text w = (Returned tt, w') /\
    delivered w' = delivered w ++ [sent] /\
    (sent = text
     \/ exists (chunk : Chunk) (w1 : World),
          InjectionEngine.shouldInterceptMessage (engine w) text = true /\
          InjectionEngine.getNextChunk w = (Returned (Some chunk), w1) /\
          sent = InjectionEngine.formatChunkContent w1 chunk text).
Proof.
  unfold InjectionEngine.sendTextareaMessage. unfold mbind, M_bind, reads.
  destruct (InjectionEngine.shouldInterceptMessage (engine w) text) eqn:Hact.
  - pose proof (handleInterception_cases text w) as Hcases.
    destruct (InjectionEngine.getNextChunk w) as [[[chunk|]|message] w1] eqn:Hnext;
      pose proof (getNextChunk_frame _ _ _ Hnext) as Hframe.
    + rewrite Hcases. eexists _, _. split; [reflexivity|]. split.
      * unfold delivered at 1. cbn. rewrite omap_app. cbn. reflexivity.
      * right. by eexists _, _.
    + destruct Hcases as (w' & -> & ->). eexists _, _. split; [reflexivity|].
      split; [|by left].
      unfold delivered at 1. cbn. rewrite omap_app. cbn. reflexivity.
    + rewrite Hcases. eexists _, _. split; [reflexivity|].
      split; [|by left].
      unfold delivered at 1. cbn. rewrite omap_app. cbn. reflexivity.
  - unfold InjectionEngine.originalSendMessage, perform, update.
    eexists _, _. split; [reflexivity|]. split; [|by left].
    unfold delivered at 1. cbn. rewrite omap_app. cbn. reflexivity.
Qed.

(** X15. A failed request for the content of the active novel does not
    block the message: the failure is reported with the error of the
    request, the original text is delivered, and nothing else changes; the
    controller stays enabled and the cursor stays where it was. *)
Theorem failed_request_falls_back
        (w : World) (text novelId message : jsstring) (novel : Novel) :
  InjectionEngine.shouldInterceptMessage (engine w) text = true ->
  activeNovelId (engine w) = Some novelId ->
  novels w !! novelId = Some novel ->
  currentParagraph novel < totalParagraphs novel ->
  paragraphs novel = None ->
  server w (filename novel) = Thrown message ->
  InjectionEngine.sendTextareaMessage text w
  = (Returned tt,
     with_effects w (effects w ++ [Toast error (utf16 "注入失败: " ++ message);
                                   Deliver text])).
Proof.
  intros Hact Hid Hn Hcur Hp Hserver.
  assert (Hnext : InjectionEngine.getNextChunk w = (Thrown message, w)).
  { unfold InjectionEngine.shouldInterceptMessage in Hact.
    unfold InjectionEngine.getNextChunk, FileManager.reloadNovelContent,
      FileManager.readFileContent, FileManager.getNovel.
    unfold mbind, M_bind, mret, M_ret, reads, throw. rewrite Hid in *.
    destruct novelId as [|c t];
      [by destruct (isEnabled (engine w))|].
    rewrite Hn.
    destruct (totalParagraphs novel <=? currentParagraph novel) eqn:E;
      [apply Z.leb_le in E; lia|].
    rewrite Hn, Hp, Hserver. done. }
  unfold InjectionEngine.sendTextareaMessage. unfold mbind, M_bind, reads.
  rewrite Hact.
  pose proof (handleInterception_cases text w) as Hcases.
  by rewrite Hnext in Hcases.
Qed.

Lemma failed_request_falls_back_witness :
  let novel := with_paragraphs (demo_novel three_paragraphs 0) None in
  let w := initial {[ demo_id := novel ]} no_server (demo_settings None None false) in
  InjectionEngine.sendTextareaMessage (utf16 "你好") w
  = (Returned tt,
     with_effects w
       (effects w ++ [Toast error (utf16 "注入失败: " ++ utf16 "读取文件失败: 404");
                      Deliver (utf16 "你好")])).
Proof.
  apply (failed_request_falls_back
           (initial {[ demo_id := with_paragraphs (demo_novel three_paragraphs 0) None ]}
                    no_server (demo_settings None None false))
           (utf16 "你好") demo_id (utf16 "读取文件失败: 404")
           (with_paragraphs (demo_novel three_paragraphs 0) None)).
  - reflexivity.
  - reflexivity.
  - reflexivity.
  - reflexivity.
  - reflexivity.
  - reflexivity.
Defined.

Lemma interception_injects_aux
        (w : World) (text novelId : jsstring) (novel : Novel)
        (ps : list jsstring) :
  InjectionEngine.shouldInterceptMessage (engine w) text = true ->
  activeNovelId (engine w) = Some novelId ->
  novels w !! novelId = Some novel ->
  paragraphs novel = Some ps ->
  currentParagraph novel < totalParagraphs novel ->
  currentParagraph novel < array_length ps ->
  exists (w' : World) (chunk : Chunk),
    InjectionEngine.sendTextareaMessage text w = (Returned tt, w') /\
    next_chunk ps (target_of (processorSettings (engine w)))
               (currentParagraph novel) = Some chunk /\
    startParagraph chunk = currentParagraph novel /\
    effects w'
    = effects w ++ [Deliver (InjectionEngine.formatChunkContent w' chunk text);
                    Emitted (utf16 "chunkInjected") (Some novelId) chunk] /\
    novels w' !! novelId
    = Some (with_currentParagraph novel
              (Z.max 0 (Z.min (endParagraph chunk) (totalParagraphs novel - 1)))) /\
    storedNovels w' = metadata <$> novels w' /\
    engine w' = engine w.
Proof.
  intros Hact Hid Hn Hp Hcur Hlen.
  destruct (next_chunk ps (target_of (processorSettings (engine w)))
                       (currentParagraph novel)) as [chunk|] eqn:Hchunk;
    [|by apply next_chunk_in_range in Hchunk].
  assert (Hstart : startParagraph chunk = currentParagraph novel).
  { unfold next_chunk in Hchunk.
    destruct (array_length ps <=? currentParagraph novel); [done|].
    destruct (array_length _ =? 0); [done|]. by injection Hchunk as <-. }
  assert (Hnext : exists w1,
    InjectionEngine.getNextChunk w = (Returned (Some chunk), w1) /\
    w1 = (let m := <[novelId := with_currentParagraph novel
                      (Z.max 0 (Z.min (endParagraph chunk) (totalParagraphs novel - 1)))]>
                     (novels w) in
          with_storedNovels (with_novels w m) (metadata <$> m))).
  { eexists. split; [|reflexivity].
    unfold InjectionEngine.shouldInterceptMessage in Hact.
    unfold InjectionEngine.getNextChunk, FileManager.reloadNovelContent,
      FileManager.getNovel.
    unfold mbind, M_bind, mret, M_ret, reads. rewrite Hid in *.
    destruct novelId as [|c t];
      [by destruct (isEnabled (engine w))|].
    rewrite Hn.
    destruct (totalParagraphs novel <=? currentParagraph novel) eqn:E;
      [apply Z.leb_le in E; lia|].
    rewrite Hn, Hp.
    rewrite (getNextChunk_loaded _ _ _ _ _ _ Hn Hp), Hchunk.
    by rewrite (updateProgress_found _ _ _ _ Hn). }
  destruct Hnext as (w1 & Hnext & Hw1).
  unfold InjectionEngine.sendTextareaMessage. unfold mbind, M_bind, reads.
  rewrite Hact.
  pose proof (handleInterception_cases text w) as Hcases.
  rewrite Hnext in Hcases. rewrite Hcases, Hid.
  eexists _, chunk. split; [reflexivity|]. split; [done|]. split; [done|].
  subst w1. cbn. split; [done|].
  split; [apply lookup_insert_eq|]. done.
Qed.



(** X22. Delivery has no gap and no overlap before the last paragraph:
    when the novel is loaded with its paragraph count, and the chunk
    injected for one message ends before the last paragraph, the cursor is
    the end of that chunk and the chunk injected for the next message
    starts there. *)
Theorem chunks_are_adjacent
        (w : World) (text text' novelId : jsstring) (novel : Novel)
        (ps : list jsstring) (chunk : Chunk) :
  InjectionEngine.shouldInterceptMessage (engine w) text = true ->
  InjectionEngine.shouldInterceptMessage (engine w) text' = true ->
  activeNovelId (engine w) = Some novelId ->
  novels w !! novelId = Some novel ->
  paragraphs novel = Some ps ->
  totalParagraphs novel = array_length ps ->
  0 <= currentParagraph novel < totalParagraphs novel ->
  next_chunk ps (target_of (processorSettings (engine w)))
             (currentParagraph novel) = Some chunk ->
  endParagraph chunk < totalParagraphs novel ->
  exists (w1 w2 : World) (chunk' : Chunk),
    InjectionEngine.sendTextareaMessage text w = (Returned tt, w1) /\
    currentParagraph <$> novels w1 !! novelId = Some (endParagraph chunk) /\
    InjectionEngine.sendTextareaMessage text' w1 = (Returned tt, w2) /\
    emitted_ranges w2
    = emitted_ranges w ++ [(startParagraph chunk, endParagraph chunk);
                           (startParagraph chunk', endParagraph chunk')] /\
    startParagraph chunk' = endParagraph chunk /\
    endParagraph chunk < endParagraph chunk'.
Proof.
  intros Hact Hact' Hid Hn Hp Htotal Hcur Hchunk Hend.
  destruct (interception_injects_aux w text novelId novel ps Hact Hid Hn Hp
              ltac:(lia) ltac:(lia))
    as (w1 & chunk0 & Hrun1 & Hchunk0 & Hstart0 & Heff1 & Hnovel1 & _ & Hengine1).
  rewrite Hchunk in Hchunk0. injection Hchunk0 as <-.
  pose proof (next_chunk_advances ps _ (currentParagraph novel) _ ltac:(lia) Hchunk)
    as Hpos.
  replace (0 `max` (endParagraph chunk `min` (totalParagraphs novel - 1)))
    with (endParagraph chunk) in Hnovel1 by lia.
  set (novel1 := with_currentParagraph novel (endParagraph chunk)) in *.
  destruct (interception_injects_aux w1 text' novelId novel1 ps
              ltac:(by rewrite Hengine1) ltac:(by rewrite Hengine1) Hnovel1 Hp
              ltac:(cbn; lia) ltac:(cbn; lia))
    as (w2 & chunk' & Hrun2 & Hchunk' & Hstart' & Heff2 & _).
  exists w1, w2, chunk'. split; [done|]. split; [by rewrite Hnovel1|].
  split; [done|]. split.
  { unfold emitted_ranges. rewrite Heff2, Heff1, !omap_app. cbn.
    by rewrite <- app_assoc. }
  split; [done|].
  cbn in Hchunk'. rewrite Hengine1 in Hchunk'.
  apply (next_chunk_advances ps _ (endParagraph chunk) _ ltac:(lia) Hchunk').
Qed.

Lemma chunks_are_adjacent_witness :
  let w := demo_world three_paragraphs 0 (demo_settings (Some 5) None false) in
  exists (w1 w2 : World) (chunk chunk' : Chunk),
    next_chunk three_paragraphs 5 0 = Some chunk /\
    InjectionEngine.sendTextareaMessage (utf16 "你好") w = (Returned tt, w1) /\
    currentParagraph <$> novels w1 !! demo_id = Some (endParagraph chunk) /\
    InjectionEngine.sendTextareaMessage [] w1 = (Returned tt, w2) /\
    emitted_ranges w2
    = emitted_ranges w ++ [(startParagraph chunk, endParagraph chunk);
                           (startParagraph chunk', endParagraph chunk')] /\
    startParagraph chunk' = endParagraph chunk /\
    endParagraph chunk < endParagraph chunk'.
Proof.
  destruct (chunks_are_adjacent
              (demo_world three_paragraphs 0 (demo_settings (Some 5) None false))
              (utf16 "你好") [] demo_id (demo_novel three_paragraphs 0)
              three_paragraphs
              (mkChunk (utf16 "第一章 开端") 0 1 1 5 (utf16 "第一章 开端"))
              eq_refl eq_refl eq_refl eq_refl eq_refl eq_refl
              (conj (Z.le_refl 0) eq_refl) eq_refl eq_refl)
    as (w1 & w2 & chunk' & H).
  exists w1, w2, (mkChunk (utf16 "第一章 开端") 0 1 1 5 (utf16 "第一章 开端")), chunk'.
  split; [reflexivity | exact H].
Defined.

(** X23. A message that carries the marker [[小说注入器]] or
    [[Novel Injector]] anywhere in it is never intercepted: it goes to the
    dispatch boundary as it is, also when the controller is enabled on a
    novel, and nothing else changes. *)
Theorem marked_message_passes_through
        (w : World) (before after : jsstring) (english : bool) :
  let marker := if english then utf16 "[Novel Injector]" else utf16 "[小说注入器]" in
  let text := before ++ marker ++ after in
  InjectionEngine.isNovelContent text = true /\
  InjectionEngine.sendTextareaMessage text w
  = (Returned tt, with_effects w (effects w ++ [Deliver text])).
Proof.
  intros marker text.
  assert (Hmarked : InjectionEngine.isNovelContent text = true).
  { unfold InjectionEngine.isNovelContent. subst text marker.
    destruct english; rewrite includes_middle; [apply orb_true_r | done]. }
  split; [done|].
  unfold InjectionEngine.sendTextareaMessage,
    InjectionEngine.shouldInterceptMessage, InjectionEngine.originalSendMessage.
  unfold_m. rewrite Hmarked.
  destruct (isEnabled (engine w)), (truthy (activeNovelId (engine w))); done.
Qed.

(* ===================================================================== *)
(** ** Disabling, and timers that fire late                              *)
(* ===================================================================== *)


(** X18. A timer that fires after autopilot was switched off, or after the
    controller was disabled, is harmless: it leaves the list of pending
    timers and nothing is delivered, no novel moves and the engine stays
    as it is. *)
Theorem late_timer_is_harmless (w : World) (h : Z) :
  isAutoPilotEnabled (engine w) = false \/ isEnabled (engine w) = false ->
  step w (Fire h)
  = (if existsb (fun t => (handle t =? h) && (due t <=? now w)) (timers w)
     then with_timers w (List.filter (fun t => negb (handle t =? h)) (timers w))
                      (nextHandle w)
     else w)
  /\ effects (step w (Fire h)) = effects w
  /\ novels (step w (Fire h)) = novels w
  /\ engine (step w (Fire h)) = engine w.
Proof.
  intros Hoff.
  assert (Hstep : step w (Fire h)
    = (if existsb (fun t => (handle t =? h) && (due t <=? now w)) (timers w)
       then with_timers w (List.filter (fun t => negb (handle t =? h)) (timers w))
                        (nextHandle w)
       else w)).
  { unfold step. cbn [react]. unfold fire.
    unfold mbind at 1, M_bind at 1, reads at 1.
    destruct (existsb _ (timers w)); [|done].
    unfold InjectionEngine.clearTimeout, InjectionEngine.triggerAutoPilotInjection.
    unfold_m. cbn. destruct Hoff as [-> | ->]; [done|].
    by rewrite orb_true_r. }
  rewrite Hstep. split; [done|].
  destruct (existsb _ (timers w)); done.
Qed.

Lemma late_timer_is_harmless_witness :
  let w := step (run (demo_world three_paragraphs 0 (demo_settings None None false))
                     [TurnComplete; Elapse 3000])
                (SetAutoPilot false 3) in
  timers w = [mkTimer 1 3000] /\
  timers (step w (Fire 1)) = [] /\
  effects (step w (Fire 1)) = effects w /\
  novels (step w (Fire 1)) = novels w /\
  engine (step w (Fire 1)) = engine w.
Proof.
  split; [vm_compute; reflexivity|].
  pose proof (late_timer_is_harmless
                (step (run (demo_world three_paragraphs 0
                              (demo_settings None None false))
                           [TurnComplete; Elapse 3000])
                      (SetAutoPilot false 3)) 1
                (or_introl eq_refl)) as (Hstep & Heff & Hnovels & Hengine).
  split; [rewrite Hstep; vm_compute; reflexivity|].
  split; [exact Heff|]. split; [exact Hnovels | exact Hengine].
Defined.

(** X19. When the active novel is deleted from the store while the
    controller is still enabled on it, the next message that is
    intercepted finds no novel: the controller reports the end of the
    novel, disables itself, and delivers the original text. *)
Theorem deleted_active_novel_disables
        (w : World) (text novelId : jsstring) (novel : Novel) (ok : bool) :
  InjectionEngine.shouldInterceptMessage (engine w) text = true ->
  activeNovelId (engine w) = Some novelId ->
  novels w !! novelId = Some novel ->
  exists w1 w2 : World,
    FileManagerOps.deleteNovel (Returned ok) novelId w = (Returned true, w1) /\
    InjectionEngine.sendTextareaMessage text w1 = (Returned tt, w2) /\
    isEnabled (engine w2) = false /\
    activeNovelId (engine w2) = None /\
    effects w2
    = effects w ++ [Toast warning (utf16 "小说已读完，已切换回正常模式");
                    Toast info (utf16 "小说注入器已禁用");
                    Deliver text] /\
    novels w2 = delete novelId (novels w).
Proof.
  intros Hact Hid Hn.
  pose proof (deleteNovel_removes_aux w novelId novel ok Hn)
    as (w1 & Hdel & Hnovels & Hengine & Heffects).
  exists w1. 
  assert (Hnext : InjectionEngine.getNextChunk w1 = (Returned None, w1)).
  { unfold InjectionEngine.shouldInterceptMessage in Hact.
    unfold InjectionEngine.getNextChunk, FileManager.getNovel.
    unfold mbind, M_bind, mret, M_ret, reads. rewrite Hengine, Hid in *.
    destruct novelId as [|c t]; [by destruct (isEnabled (engine w))|].
    by rewrite Hnovels, lookup_delete_eq. }
  pose proof (handleInterception_cases text w1) as Hcases.
  rewrite Hnext in Hcases. destruct Hcases as (w2 & Hrun & Hw2).
  exists w2. split; [done|]. split.
  { unfold InjectionEngine.sendTextareaMessage. unfold mbind, M_bind, reads.
    by rewrite Hengine, Hact. }
  rewrite Hw2. cbn [with_effects engine effects novels].
  set (w0 := with_effects w1 _).
  pose proof (disable_novels w0) as Hkeep.
  assert (Hoff : isEnabled (engine (snd (InjectionEngine.disable w0))) = false
                 /\ activeNovelId (engine (snd (InjectionEngine.disable w0))) = None).
  { unfold InjectionEngine.disable, InjectionEngine.saveSettings,
      InjectionEngine.toastr, InjectionEngine.clearTimeout. unfold_m. cbn.
    destruct (InjectionEngine.timer_set _); done. }
  destruct Hoff as [Hoff Hnone].
  split; [done|]. split; [done|]. split; [by rewrite Heffects|].
  by rewrite Hkeep.
Qed.

Lemma deleted_active_novel_disables_witness :
  let w := demo_world three_paragraphs 1 (demo_settings None None false) in
  exists w1 w2 : World,
    FileManagerOps.deleteNovel (Returned true) demo_id w = (Returned true, w1) /\
    InjectionEngine.sendTextareaMessage (utf16 "你好") w1 = (Returned tt, w2) /\
    isEnabled (engine w2) = false /\
    activeNovelId (engine w2) = None /\
    effects w2
    = effects w ++ [Toast warning (utf16 "小说已读完，已切换回正常模式");
                    Toast info (utf16 "小说注入器已禁用");
                    Deliver (utf16 "你好")] /\
    novels w2 = delete demo_id (novels w).
Proof.
  apply (deleted_active_novel_disables
           (demo_world three_paragraphs 1 (demo_settings None None false))
           (utf16 "你好") demo_id (demo_novel three_paragraphs 1) true).
  - reflexivity.
  - reflexivity.
  - reflexivity.
Defined.

(* ===================================================================== *)
(** ** [NovelManager.getNextChunk]                                       *)
(* ===================================================================== *)

Lemma joined_cons p ps :
  NovelManager.joined (p :: ps)
  = NovelManager.text p ++ LF ++ LF ++ NovelManager.joined ps.
Proof. unfold NovelManager.joined. cbn. by rewrite <- !app_assoc. Qed.

Lemma joined_one p :
  NovelManager.joined [p] = NovelManager.text p ++ LF ++ LF.
Proof. unfold NovelManager.joined. cbn [map concat]. by rewrite app_nil_r. Qed.

Lemma at_index_drop {A} (xs : list A) (i : Z) (x : A) :
  at_index xs i = Some x ->
  0 <= i /\ drop (Z.to_nat i) xs = x :: drop (Z.to_nat (i + 1)) xs.
Proof.
  unfold at_index. destruct (i <? 0) eqn:E; [done|]. apply Z.ltb_ge in E.
  intros Hx. split; [done|].
  replace (Z.to_nat (i + 1)) with (S (Z.to_nat i)) by lia.
  by apply drop_S.
Qed.

(** The loop from [i] takes [n] paragraphs, at least one when there is
    one: the text grows by those paragraphs, it is shorter than the chunk
    size before the last of them, and the loop stops at the end of the
    array or with the chunk size reached. *)
Lemma gather_spec ps chunkSize fuel : forall i g,
  0 <= i <= array_length ps ->
  array_length ps - i <= Z.of_nat fuel ->
  exists (n : nat) (g' : NovelManager.Gather),
    NovelManager.gather fuel ps chunkSize i g = Returned g' /\
    i + Z.of_nat n <= array_length ps /\
    (i < array_length ps -> (1 <= n)%nat) /\
    NovelManager.currentText g'
    = NovelManager.currentText g
      ++ NovelManager.joined (take n (drop (Z.to_nat i) ps)) /\
    (n = 0%nat /\ g' = g
     \/ (1 <= n)%nat /\ NovelManager.endPara g' = i + Z.of_nat n - 1) /\
    (forall m : nat, (1 <= m < n)%nat ->
       js_length (NovelManager.currentText g
                  ++ NovelManager.joined (take m (drop (Z.to_nat i) ps)))
       < chunkSize) /\
    (i + Z.of_nat n = array_length ps
     \/ chunkSize <= js_length (NovelManager.currentText g')).
Proof.
  induction fuel as [|fuel IH]; intros i g Hi Hfuel; cbn [NovelManager.gather].
  - exists 0%nat, g. rewrite take_0. unfold NovelManager.joined. cbn [map concat].
    rewrite app_nil_r.
    split; [done|]. split; [lia|]. split; [lia|]. split; [done|].
    split; [by left|]. split; [intros m Hm; lia | left; lia].
  - destruct (i <? array_length ps) eqn:Hguard.
    2:{ apply Z.ltb_ge in Hguard. exists 0%nat, g. rewrite take_0.
        unfold NovelManager.joined. cbn [map concat]. rewrite app_nil_r.
        split; [done|]. split; [lia|]. split; [lia|]. split; [done|].
        split; [by left|]. split; [intros m Hm; lia | left; lia]. }
    apply Z.ltb_lt in Hguard.
    destruct (at_index ps i) as [para|] eqn:Hpara.
    2:{ unfold at_index in Hpara. destruct (i <? 0) eqn:E;
          [apply Z.ltb_lt in E; lia|].
        apply lookup_ge_None in Hpara. unfold array_length in *. lia. }
    apply at_index_drop in Hpara as [_ Hdrop].
    set (g1 := NovelManager.mkGather _ i _).
    destruct (chunkSize <=? js_length (NovelManager.currentText g1)) eqn:Hfull.
    + apply Z.leb_le in Hfull. exists 1%nat, g1.
      split; [done|]. split; [lia|]. split; [lia|]. split.
      { rewrite Hdrop. cbn [take]. by rewrite joined_one. }
      split; [right; split; [lia | cbn; lia]|].
      split; [intros m Hm; lia | by right].
    + apply Z.leb_gt in Hfull.
      destruct (IH (i + 1) g1 ltac:(lia) ltac:(lia))
        as (n & g' & Hrun & Hin & Hone & Htext & Hend & Hshort & Hstop).
      exists (S n), g'. split; [done|]. split; [lia|]. split; [lia|].
      assert (Hg1 : NovelManager.currentText g1
                    = NovelManager.currentText g
                      ++ NovelManager.joined (take 1 (drop (Z.to_nat i) ps))).
      { rewrite Hdrop. cbn [take]. by rewrite joined_one. }
      split.
      { rewrite Htext, Hdrop. cbn [take]. rewrite joined_cons.
        cbn [NovelManager.currentText g1]. by rewrite <- !app_assoc. }
      split.
      { right. split; [lia|]. destruct Hend as [[-> ->] | [Hn Hend]];
          [cbn; lia | lia]. }
      split; [|destruct Hstop as [Hstop|Hstop]; [left; lia | by right]].
      intros [|m] Hm; [lia|].
      destruct m as [|m].
      * by rewrite <- Hg1.
      * rewrite Hdrop. cbn [take]. rewrite joined_cons.
        specialize (Hshort (S m) ltac:(lia)).
        cbn [NovelManager.currentText g1] in Hshort.
        by rewrite <- !app_assoc in Hshort.
Qed.

Lemma novelManager_next_chunk_aux
        (ps : list NovelManager.Paragraph) (cur chunkSize : Z) :
  -1 <= cur ->
  let st := NovelManager.mkState ps cur in
  if (array_length ps =? 0) || (array_length ps - 1 <=? cur)
  then NovelManager.getNextChunk chunkSize st = (Returned None, st)
  else
    exists chunk : NovelManager.Chunk,
      NovelManager.getNextChunk chunkSize st
      = (Returned (Some chunk),
         NovelManager.mkState ps (NovelManager.end_para chunk)) /\
      NovelManager.start_para chunk = cur + 1 /\
      cur + 1 <= NovelManager.end_para chunk <= array_length ps - 1 /\
      NovelManager.chunk_text chunk
      = trim (NovelManager.joined (NovelManager.covered ps chunk)) /\
      (forall m : nat,
         (1 <= m)%nat ->
         Z.of_nat m < NovelManager.end_para chunk - NovelManager.start_para chunk + 1 ->
         js_length (NovelManager.joined
                      (take m (drop (Z.to_nat (cur + 1)) ps))) < chunkSize) /\
      (NovelManager.end_para chunk = array_length ps - 1
       \/ chunkSize
          <= js_length (NovelManager.joined (NovelManager.covered ps chunk))).
Proof.
  intros Hcur st. unfold NovelManager.getNextChunk. cbn [NovelManager.novelParagraphs
    NovelManager.currentIndex st].
  destruct ((array_length ps =? 0) || (array_length ps - 1 <=? cur)) eqn:Hguard;
    [done|].
  apply orb_false_iff in Hguard as [_ Hlast]. apply Z.leb_gt in Hlast.
  destruct (gather_spec ps chunkSize (Z.to_nat (array_length ps - (cur + 1)))
              (cur + 1) (NovelManager.mkGather [] (cur + 1) [])
              ltac:(lia) ltac:(lia))
    as (n & g' & Hrun & Hin & Hone & Htext & Hend & Hshort & Hstop).
  rewrite Hrun. specialize (Hone ltac:(lia)).
  destruct Hend as [[-> _] | [_ Hend]]; [lia|].
  cbn [NovelManager.currentText] in Htext. cbn [app] in Htext.
  exists (NovelManager.mkChunk (trim (NovelManager.currentText g')) (cur + 1)
            (NovelManager.endPara g') (NovelManager.gathered_chapter g')).
  split; [reflexivity|].
  unfold NovelManager.covered.
  cbn [NovelManager.start_para NovelManager.end_para NovelManager.chunk_text].
  rewrite Hend.
  replace (Z.to_nat (cur + 1 + Z.of_nat n - 1 - (cur + 1) + 1)) with n by lia.
  split; [done|]. split; [lia|]. split; [by rewrite Htext|]. split.
  - intros m Hm1 Hm. apply (Hshort m). lia.
  - destruct Hstop as [Hstop|Hstop]; [left; lia | right; by rewrite <- Htext].
Qed.

(** X20. [NovelManager.getNextChunk] returns [null] exactly when there is
    no paragraph after the current index.  Otherwise the chunk starts
    right after the current index and ends inside the array, the current
    index moves to its last paragraph, its text is the trimmed text of the
    paragraphs it covers, no shorter run of them reaches the chunk size,
    and it ends at the last paragraph or with the chunk size reached. *)
Theorem novelManager_next_chunk
        (ps : list NovelManager.Paragraph) (cur chunkSize : Z) :
  -1 <= cur ->
  let st := NovelManager.mkState ps cur in
  if (array_length ps =? 0) || (array_length ps - 1 <=? cur)
  then NovelManager.getNextChunk chunkSize st = (Returned None, st)
  else
    exists chunk : NovelManager.Chunk,
      NovelManager.getNextChunk chunkSize st
      = (Returned (Some chunk),
         NovelManager.mkState ps (NovelManager.end_para chunk)) /\
      NovelManager.start_para chunk = cur + 1 /\
      cur + 1 <= NovelManager.end_para chunk <= array_length ps - 1 /\
      NovelManager.chunk_text chunk
      = trim (NovelManager.joined (NovelManager.covered ps chunk)) /\
      (forall m : nat,
         (1 <= m)%nat ->
         Z.of_nat m < NovelManager.end_para chunk - NovelManager.start_para chunk + 1 ->
         js_length (NovelManager.joined
                      (take m (drop (Z.to_nat (cur + 1)) ps))) < chunkSize) /\
      (NovelManager.end_para chunk = array_length ps - 1
       \/ chunkSize
          <= js_length (NovelManager.joined (NovelManager.covered ps chunk))).
Proof. apply novelManager_next_chunk_aux. Qed.

Lemma novelManager_next_chunk_witness :
  let ps := [NovelManager.mkParagraph (utf16 "第一章 开端") (utf16 "第一章 开端");
             NovelManager.mkParagraph (utf16 "他走进了房间。") (utf16 "第一章 开端")] in
  exists chunk : NovelManager.Chunk,
    NovelManager.getNextChunk 5 (NovelManager.mkState ps (-1))
    = (Returned (Some chunk),
       NovelManager.mkState ps (NovelManager.end_para chunk)) /\
    NovelManager.start_para chunk = -1 + 1 /\
    -1 + 1 <= NovelManager.end_para chunk <= array_length ps - 1 /\
    NovelManager.chunk_text chunk
    = trim (NovelManager.joined (NovelManager.covered ps chunk)) /\
    (forall m : nat,
       (1 <= m)%nat ->
       Z.of_nat m < NovelManager.end_para chunk - NovelManager.start_para chunk + 1 ->
       js_length (NovelManager.joined
                    (take m (drop (Z.to_nat (-1 + 1)) ps))) < 5) /\
    (NovelManager.end_para chunk = array_length ps - 1
     \/ 5 <= js_length (NovelManager.joined (NovelManager.covered ps chunk))).
Proof.
  apply (novelManager_next_chunk
           [NovelManager.mkParagraph (utf16 "第一章 开端") (utf16 "第一章 开端");
            NovelManager.mkParagraph (utf16 "他走进了房间。") (utf16 "第一章 开端")]
           (-1) 5).
  lia.
Defined.

Lemma drain_spec (ps : list NovelManager.Paragraph) (chunkSize : Z) (fuel : nat) :
  forall cur : Z,
    -1 <= cur ->
    array_length ps - 1 - cur <= Z.of_nat fuel ->
    let result := NovelManager.drain fuel chunkSize (NovelManager.mkState ps cur) in
    concat (NovelManager.covered ps <$> result.1) = drop (Z.to_nat (cur + 1)) ps /\
    Forall (fun chunk =>
              NovelManager.covered ps chunk <> [] /\
              NovelManager.chunk_text chunk
              = trim (NovelManager.joined (NovelManager.covered ps chunk)))
           result.1 /\
    NovelManager.novelParagraphs result.2 = ps /\
    NovelManager.getNextChunk chunkSize result.2 = (Returned None, result.2).
Proof.
  induction fuel as [|fuel IH]; intros cur Hcur Hfuel.
  - cbn. unfold array_length in *.
    rewrite drop_ge by lia. split; [done|]. split; [done|]. split; [done|].
    unfold NovelManager.getNextChunk. cbn.
    destruct (array_length ps =? 0) eqn:E0; [done|].
    destruct (array_length ps - 1 <=? cur) eqn:E1; [done|].
    apply Z.leb_gt in E1. unfold array_length in E1. lia.
  - cbn [NovelManager.drain].
    pose proof (novelManager_next_chunk_aux ps cur chunkSize Hcur) as Hnext.
    cbv zeta in Hnext.
    destruct ((array_length ps =? 0) || (array_length ps - 1 <=? cur)) eqn:Hguard.
    + rewrite Hnext. cbn. split; [|by rewrite Hnext].
      apply orb_true_iff in Hguard as [E|E].
      * apply Z.eqb_eq in E. unfold array_length in E.
        destruct ps; [by rewrite drop_nil | cbn in E; lia].
      * apply Z.leb_le in E. unfold array_length in E. rewrite drop_ge by lia. done.
    + destruct Hnext as (chunk & Hrun & Hstart & Hrange & Htext).
      rewrite Hrun.
      specialize (IH (NovelManager.end_para chunk) ltac:(lia) ltac:(lia)).
      cbv zeta in IH.
      destruct (NovelManager.drain fuel chunkSize
                  (NovelManager.mkState ps (NovelManager.end_para chunk)))
        as [chunks st'] eqn:Hrest.
      cbn [fst snd] in *. destruct IH as (Hcat & Hall & Hps & Hnull).
      assert (Hcov : NovelManager.covered ps chunk
                = take (Z.to_nat (NovelManager.end_para chunk - cur))
                       (drop (Z.to_nat (cur + 1)) ps)).
      { unfold NovelManager.covered. rewrite Hstart. f_equal. lia. }
      split.
      { cbn [fmap list_fmap concat]. rewrite Hcat, Hcov.
        replace (Z.to_nat (NovelManager.end_para chunk + 1))
          with (Z.to_nat (cur + 1) + Z.to_nat (NovelManager.end_para chunk - cur))%nat
          by lia.
        rewrite <- drop_drop. apply take_drop. }
      split; [|split; [exact Hps | exact Hnull]].
      constructor; [|exact Hall]. split; [|exact (proj1 Htext)].
      rewrite Hcov. intros Hnil. apply (f_equal length) in Hnil.
      rewrite length_take, length_drop in Hnil. cbn in Hnil.
      unfold array_length in *. lia.
Qed.

(** X21. Called again and again after [resetProgress], [getNextChunk]
    hands out every paragraph of the novel exactly once and in order: the
    paragraphs the chunks cover, put end to end, are the novel; no chunk
    is empty; each chunk text is the trimmed text of its paragraphs; and
    after at most as many calls as there are paragraphs the answer is
    [null]. *)
Theorem novelManager_reads_every_paragraph_once
        (ps : list NovelManager.Paragraph) (cur chunkSize : Z) :
  let st0 := NovelManager.resetProgress (NovelManager.mkState ps cur) in
  let result := NovelManager.drain (length ps) chunkSize st0 in
  concat (NovelManager.covered ps <$> result.1) = ps /\
  Forall (fun chunk =>
            NovelManager.covered ps chunk <> [] /\
            NovelManager.chunk_text chunk
            = trim (NovelManager.joined (NovelManager.covered ps chunk)))
         result.1 /\
  (length result.1 <= length ps)%nat /\
  NovelManager.getNextChunk chunkSize result.2 = (Returned None, result.2).
Proof.
  intros st0 result.
  pose proof (drain_spec ps chunkSize (length ps) (-1) ltac:(lia)
                ltac:(unfold array_length; lia)) as Hspec.
  cbv zeta in Hspec. fold st0 in Hspec. 
  change (NovelManager.drain (length ps) chunkSize
            (NovelManager.mkState ps (-1))) with result in Hspec.
  destruct Hspec as (Hcat & Hall & _ & Hnull).
  split; [exact Hcat|]. split; [exact Hall|]. split; [|exact Hnull].
  assert (Hlen : forall fuel st,
            (length (NovelManager.drain fuel chunkSize st).1 <= fuel)%nat).
  { induction fuel as [|fuel IH]; intros st; cbn [NovelManager.drain]; [cbn; lia|].
    destruct (NovelManager.getNextChunk chunkSize st) as [[[chunk|]|msg] st'];
      try (cbn; lia).
    specialize (IH st').
    destruct (NovelManager.drain fuel chunkSize st') as [chunks st'']. cbn in *. lia. }
  apply Hlen.
Qed.
